(** * go-jsonrpc: a JSON-RPC 2.0 client over HTTP

    A shallow embedding of [client.go] (package [jsonrpc]) and the
    properties of [Client.Call] that its specification states.

    The package is glue around three libraries: [encoding/json],
    [net/http] and [github.com/google/uuid].  Their types and functions
    are not code of this package; they are the fields of the classes
    [GoTypes] and [GoLib] below, and every definition translated from
    [client.go] is written over that interface.  A small concrete
    instance ([Stub], a canned HTTP server) lets the definitions be
    evaluated.

    Effects are explicit: a computation of type [M A] passes a [state]
    made of the outside world (random source, network) and the
    chronological list of the library calls made so far.

    Conventions for Go values:
    - a pointer or interface that may be nil is an [option]: [None] is nil;
    - [[]byte] and [string] are both [string] (a sequence of 8-bit
      characters);
    - [Client], [Option] and the receiver of every method are non-nil:
      Go panics on a nil [*Client] or a nil [Option], and a panic is
      outside this model. *)

From Stdlib Require Import ZArith Lia Ascii String.
From stdpp Require Import base strings list gmap fin_maps pretty.

Local Open Scope Z_scope.
Local Open Scope string_scope.
Set Warnings "-register-all".

(** ** JSON documents

    The tree of a JSON text.  An object keeps its members in the order in
    which they are written; a number keeps its literal. *)

Inductive json : Type :=
| JNull
| JBool (b : bool)
| JNumber (lit : string)
| JString (s : string)
| JArray (items : list json)
| JObject (members : list (string * json)).

(** The value of member [key] of an object, if the document is an object
    that has one. *)
Fixpoint members_lookup (key : string) (ms : list (string * json)) : option json :=
  match ms with
  | [] => None
  | (k, v) :: ms' => if String.eqb k key then Some v else members_lookup key ms'
  end.

Definition json_member (key : string) (j : json) : option json :=
  match j with
  | JObject ms => members_lookup key ms
  | _ => None
  end.

(** The outcome of a Go call that returns [(value, err)]. *)
Inductive outcome (E A : Type) : Type :=
| Ok (a : A)
| Failed (e : E).
Arguments Ok {E A} a.
Arguments Failed {E A} e.

(** ** The types of the libraries *)

Class GoTypes : Type := {
  (** [context.Context] *)
  context_Context : Type;
  (** the dynamic value held by a non-nil [interface{}] *)
  GoValue : Type;
  (** the contents of the location the caller passes as [result] *)
  Out : Type;
  (** [uuid.UUID], a comparable 16-byte array *)
  uuid_UUID : Type;
  uuid_UUID_eq_dec :: EqDecision uuid_UUID;
  (** the identity of an [http.Client] instance, the target of a non-nil
      [*http.Client] *)
  http_Client : Type;
  (** [io.ReadCloser], the body stream of an HTTP response *)
  io_ReadCloser : Type;
  (** the error values the libraries return *)
  LibError : Type;
  (** whatever the libraries read and change outside the program: the
      random source and the network *)
  World : Type
}.

(** [http.Header] is [map[string][]string]. *)
Abbreviation http_Header := (gmap string (list string)).

(** [json.RawMessage] is [[]byte]. *)
Definition json_RawMessage : Type := string.

(** [const Version = "2.0"] *)
Definition Version : string := "2.0".

(** [type ErrorCode int] and its constants. *)
Definition ErrorCode : Type := Z.

Definition ParseError : ErrorCode := -32700.
Definition InvalidRequest : ErrorCode := -32600.
Definition MethodNotFound : ErrorCode := -32601.
Definition InvalidParams : ErrorCode := -32602.
Definition InternalError : ErrorCode := -32603.

(** [http.StatusOK] and [http.MethodPost] *)
Definition http_StatusOK : Z := 200.
Definition http_MethodPost : string := "POST".

Section Types.
Context {T : GoTypes}.

(** [type Client struct { HTTPClient *http.Client }] *)
Record Client : Type := {
  Client_HTTPClient : option http_Client
}.

(** [type request struct]; [Params] is an [interface{}]. *)
Record request : Type := {
  request_JSONRPC : string;
  request_Method : string;
  request_Params : option GoValue;
  request_ID : uuid_UUID
}.

(** [type ResponseError struct] *)
Record ResponseError : Type := {
  ResponseError_Code : ErrorCode;
  ResponseError_Message : string;
  ResponseError_Data : option GoValue
}.

(** [type response struct]; [Error] is a [*ResponseError]. *)
Record response : Type := {
  response_JSONRPC : string;
  response_Result : json_RawMessage;
  response_Error : option ResponseError;
  response_ID : uuid_UUID
}.

(** [type callOptions struct { Header http.Header }]; a Go map may be
    nil. *)
Record callOptions : Type := {
  callOptions_Header : option http_Header
}.

(** The fields of [http.Request] the package sets or passes on. *)
Record http_Request : Type := {
  Request_Method : string;
  Request_URL : string;
  Request_Header : http_Header;
  Request_Body : string;
  Request_ctx : context_Context
}.

(** The fields of [http.Response] the package reads. *)
Record http_Response : Type := {
  Response_Status : string;
  Response_StatusCode : Z;
  Response_Body : io_ReadCloser
}.

(** Go's [error] values as [Call] builds them:
    [errors.New] and [fmt.Errorf] without [%w] give an [errorString];
    [fmt.Errorf] with [%w] gives a [wrapError] holding the formatted
    message and the wrapped error; a [*ResponseError] is an error by its
    [Error] method. *)
Inductive error : Type :=
| errorString (s : string)
| wrapError (msg : string) (err : error)
| ResponseError_error (e : ResponseError)
| libError (e : LibError).

(** One entry per library call, in the order the calls are made. *)
Inductive event : Type :=
| EvUUIDNew (id : uuid_UUID)
| EvMarshal (r : request)
| EvNewRequest (method url : string)
| EvDo (c : http_Client) (req : http_Request)
| EvDecode (body : io_ReadCloser)
| EvUnmarshal (data : json_RawMessage)
| EvDiscard (body : io_ReadCloser)
| EvClose (body : io_ReadCloser).

Record state : Type := {
  world : World;
  trace : list event
}.
End Types.

(** ** The functions of the libraries *)

Class GoLib {T : GoTypes} : Type := {
  (** [uuid.New()] draws from the random source. *)
  uuid_New : World -> uuid_UUID * World;
  (** [UUID.MarshalText], the text [encoding/json] writes for a UUID *)
  uuid_MarshalText : uuid_UUID -> string;

  (** the JSON document [encoding/json] writes for a non-nil value, or
      the error of a value it cannot encode *)
  json_encode : GoValue -> outcome LibError json;
  (** the text of a JSON document as [json.Marshal] writes it *)
  json_text : json -> string;
  (** [json.NewDecoder(body).Decode(&rpcRes)] at type [response]: reads
      from the body stream *)
  json_Decode_response :
    io_ReadCloser -> World -> outcome LibError response * World;
  (** [json.Unmarshal(data, result)]: the new contents of the location
      and the error; the location may change also when an error is
      returned *)
  json_Unmarshal : json_RawMessage -> Out -> Out * option LibError;

  (** [http.DefaultClient] *)
  http_DefaultClient : http_Client;
  (** the error, if any, for which [http.NewRequestWithContext] refuses a
      context and URL *)
  http_NewRequest_check : context_Context -> string -> option LibError;
  (** [textproto.CanonicalMIMEHeaderKey], applied by [Header.Add] and
      [Header.Get] to the key *)
  CanonicalMIMEHeaderKey : string -> string;
  (** the [Do] method of [http.Client] *)
  http_Client_Do :
    http_Client -> http_Request -> World -> outcome LibError http_Response * World;
  (** [io.Copy(ioutil.Discard, body)] and [body.Close()] *)
  io_Copy_Discard : io_ReadCloser -> World -> World;
  io_Close : io_ReadCloser -> World -> World;

  (** the [Error()] text of a library error *)
  LibError_Error : LibError -> string;

  (** the order in which one [for key, values := range m] visits a map:
      unspecified by Go, some enumeration of the entries *)
  map_range : http_Header -> list (string * list string);
  map_range_perm : forall m : http_Header, map_range m ≡ₚ map_to_list m
}.

(** The same libraries over another network: [Do] is what the transports
    do, everything else is as in [L]. *)
Definition with_Do {T : GoTypes} (L : GoLib)
    (Do : http_Client -> http_Request -> World ->
          outcome LibError http_Response * World) : GoLib :=
  {| uuid_New := @uuid_New T L;
     uuid_MarshalText := @uuid_MarshalText T L;
     json_encode := @json_encode T L;
     json_text := @json_text T L;
     json_Decode_response := @json_Decode_response T L;
     json_Unmarshal := @json_Unmarshal T L;
     http_DefaultClient := @http_DefaultClient T L;
     http_NewRequest_check := @http_NewRequest_check T L;
     CanonicalMIMEHeaderKey := @CanonicalMIMEHeaderKey T L;
     http_Client_Do := Do;
     io_Copy_Discard := @io_Copy_Discard T L;
     io_Close := @io_Close T L;
     LibError_Error := @LibError_Error T L;
     map_range := @map_range T L;
     map_range_perm := @map_range_perm T L |}.

(** ** client.go *)

Section Client.
Context {T : GoTypes} {L : GoLib}.

(** *** Computations with effects *)

Definition M (A : Type) : Type := state -> A * state.

Definition ret {A : Type} (a : A) : M A := fun s => (a, s).

Definition bind {A B : Type} (m : M A) (k : A -> M B) : M B :=
  fun s => let (a, s') := m s in k a s'.

Notation "'do' x <- m ; k" := (bind m (fun x => k))
  (at level 10, x name, m at level 100, k at level 200).
Notation "'run' m ; k" := (bind m (fun _ => k))
  (at level 10, m at level 100, k at level 200).

(** Record a library call. *)
Definition emit (e : event) : M unit :=
  fun s => (tt, {| world := world s; trace := (trace s ++ [e])%list |}).

(** A library call that reads or changes the world. *)
Definition on_world {A : Type} (f : World -> A * World) : M A :=
  fun s => let (a, w) := f (world s) in (a, {| world := w; trace := trace s |}).

(** The library calls [Call] makes, each recorded in the trace. *)
Definition call_uuid_New : M uuid_UUID :=
  do id <- on_world uuid_New;
  run emit (EvUUIDNew id);
  ret id.

Definition call_Do (c : http_Client) (req : http_Request)
  : M (outcome LibError http_Response) :=
  run emit (EvDo c req);
  on_world (http_Client_Do c req).

Definition call_Decode (body : io_ReadCloser) : M (outcome LibError response) :=
  run emit (EvDecode body);
  on_world (json_Decode_response body).

Definition call_Unmarshal (data : json_RawMessage) (result : Out)
  : M (Out * option LibError) :=
  run emit (EvUnmarshal data);
  ret (json_Unmarshal data result).

Definition call_Copy_Discard (body : io_ReadCloser) : M unit :=
  run emit (EvDiscard body);
  on_world (fun w => (tt, io_Copy_Discard body w)).

Definition call_Close (body : io_ReadCloser) : M unit :=
  run emit (EvClose body);
  on_world (fun w => (tt, io_Close body w)).

(** *** Errors *)

(** [func (err *ResponseError) Error() string]:
    [fmt.Sprintf("%s (%d)", err.Message, err.Code)] *)
Definition ResponseError_Error (err : ResponseError) : string :=
  ResponseError_Message err +:+ " (" +:+ pretty (ResponseError_Code err) +:+ ")".

(** The [Error()] method of each kind of error. *)
Definition error_Error (err : error) : string :=
  match err with
  | errorString s => s
  | wrapError msg _ => msg
  | ResponseError_error e => ResponseError_Error e
  | libError e => LibError_Error e
  end.

(** [errors.New(text)] *)
Definition errors_New (text : string) : error := errorString text.

(** [fmt.Errorf(prefix + "%w", err)] *)
Definition fmt_Errorf_w (prefix : string) (err : error) : error :=
  wrapError (prefix +:+ error_Error err) err.

(** [fmt.Errorf(prefix + "%s", s)] *)
Definition fmt_Errorf_s (prefix : string) (s : string) : error :=
  errorString (prefix +:+ s).

(** *** The request envelope *)

(** [json.Marshal(r)] for [r *request], field by field in the order of
    the declaration and under the names of the tags:
    [`json:"jsonrpc"`], [`json:"method"`], [`json:"params,omitempty"`],
    [`json:"id"`].  [omitempty] on a field of interface type leaves the
    member out exactly when the interface is nil.  [uuid.UUID] is a
    [TextMarshaler], so the identifier is written as a JSON string. *)
Definition request_json (r : request) : outcome LibError json :=
  match request_Params r with
  | None =>
      Ok (JObject [("jsonrpc", JString (request_JSONRPC r));
                   ("method", JString (request_Method r));
                   ("id", JString (uuid_MarshalText (request_ID r)))])
  | Some v =>
      match json_encode v with
      | Failed e => Failed e
      | Ok p =>
          Ok (JObject [("jsonrpc", JString (request_JSONRPC r));
                       ("method", JString (request_Method r));
                       ("params", p);
                       ("id", JString (uuid_MarshalText (request_ID r)))])
      end
  end.

Definition json_Marshal_request (r : request) : outcome LibError string :=
  match request_json r with
  | Failed e => Failed e
  | Ok j => Ok (json_text j)
  end.

Definition call_Marshal (r : request) : M (outcome LibError string) :=
  run emit (EvMarshal r);
  ret (json_Marshal_request r).

(** [func requestBody(method string, params interface{})], returning
    the identifier and a reader over the marshalled bytes, or an error.
    The reader is modelled by its contents. *)
Definition requestBody (method : string) (params : option GoValue)
  : M (outcome error (uuid_UUID * string)) :=
  do id <- call_uuid_New;
  let r := {| request_JSONRPC := Version;
              request_Method := method;
              request_Params := params;
              request_ID := id |} in
  do m <- call_Marshal r;
  match m with
  | Failed err => ret (Failed (fmt_Errorf_w "failed to marshal request: " (libError err)))
  | Ok b => ret (Ok (request_ID r, b))
  end.

(** *** Options *)

(** [type Option interface { apply(opts *callOptions) }], implemented by
    [type optionFunc func(opts *callOptions)]: an option is what it does
    to the options value it is applied to. *)
Definition Option : Type := callOptions -> callOptions.

(** [func (f optionFunc) apply(opts *callOptions)] *)
Definition apply (f : Option) (opts : callOptions) : callOptions := f opts.

(** [func WithHeader(header http.Header) Option]:
    [opts.Header = header] *)
Definition WithHeader (header : option http_Header) : Option :=
  fun opts => {| callOptions_Header := header |}.

(** [var callOpts callOptions]: the zero value. *)
Definition callOptions_zero : callOptions := {| callOptions_Header := None |}.

(** [for _, opt := range opts { opt.apply(&callOpts) }] *)
Fixpoint apply_each (opts : list Option) (callOpts : callOptions) : callOptions :=
  match opts with
  | [] => callOpts
  | opt :: rest => apply_each rest (apply opt callOpts)
  end.

(** Lines 92-97 of [Call]. *)
Definition apply_options (opts : list Option) : callOptions :=
  if (0 <? Z.of_nat (length opts))%Z
  then apply_each opts callOptions_zero
  else callOptions_zero.

(** *** Building the HTTP request *)

(** [Header.Add(key, value)]: append to the values of the canonical
    key. *)
Definition Header_Add (key value : string) (h : http_Header) : http_Header :=
  let k := CanonicalMIMEHeaderKey key in
  <[k := (default [] (h !! k) ++ [value])%list]> h.

(** [Header.Values(key)] and [Header.Get(key)]: all the values of the
    canonical key, and the first of them or the empty string. *)
Definition Header_Values (key : string) (h : http_Header) : list string :=
  default [] (h !! CanonicalMIMEHeaderKey key).

Definition Header_Get (key : string) (h : http_Header) : string :=
  default EmptyString (head (Header_Values key h)).

(** [for _, value := range values { req.Header.Add(key, value) }] *)
Fixpoint add_values (key : string) (values : list string) (h : http_Header)
  : http_Header :=
  match values with
  | [] => h
  | value :: rest => add_values key rest (Header_Add key value h)
  end.

(** [for key, values := range opts.Header { ... }], the entries in the
    order the loop visits them. *)
Fixpoint add_entries (entries : list (string * list string)) (h : http_Header)
  : http_Header :=
  match entries with
  | [] => h
  | (key, values) :: rest => add_entries rest (add_values key values h)
  end.

(** [http.NewRequestWithContext(ctx, method, url, body)]: an error for a
    context or URL the library refuses, otherwise a request with an
    empty header. *)
Definition http_NewRequestWithContext
    (ctx : context_Context) (method url : string) (body : string)
  : M (outcome LibError http_Request) :=
  run emit (EvNewRequest method url);
  match http_NewRequest_check ctx url with
  | Some err => ret (Failed err)
  | None => ret (Ok {| Request_Method := method;
                       Request_URL := url;
                       Request_Header := ∅;
                       Request_Body := body;
                       Request_ctx := ctx |})
  end.

Definition set_Header (req : http_Request) (h : http_Header) : http_Request :=
  {| Request_Method := Request_Method req;
     Request_URL := Request_URL req;
     Request_Header := h;
     Request_Body := Request_Body req;
     Request_ctx := Request_ctx req |}.

(** [func (client *Client) newRequest(ctx, url, body, opts)], returning
    the request or an error *)
Definition newRequest (client : Client) (ctx : context_Context) (url : string)
    (body : string) (opts : callOptions) : M (outcome error http_Request) :=
  do r <- http_NewRequestWithContext ctx http_MethodPost url body;
  match r with
  | Failed err =>
      ret (Failed (fmt_Errorf_w "failed to create new HTTP request: " (libError err)))
  | Ok req =>
      let h := Header_Add "Content-Type" "text/json" (Request_Header req) in
      let h := match callOptions_Header opts with
               | None => h
               | Some header => add_entries (map_range header) h
               end in
      ret (Ok (set_Header req h))
  end.

(** [func (client *Client) httpClient() *http.Client] *)
Definition httpClient (client : Client) : http_Client :=
  match Client_HTTPClient client with
  | None => http_DefaultClient
  | Some c => c
  end.

(** *** Call *)

(** Lines 116-138 of [Call]: what runs between the two [defer]
    statements and the return.  The result is the contents of the
    caller's location and the error returned. *)
Definition Call_response (res : http_Response) (id : uuid_UUID) (result : Out)
  : M (Out * option error) :=
  if bool_decide (Response_StatusCode res ≠ http_StatusOK) then
    ret (result, Some (fmt_Errorf_s "server does not respond 200 OK: "
                                    (Response_Status res)))
  else
    do d <- call_Decode (Response_Body res);
    match d with
    | Failed err =>
        ret (result, Some (fmt_Errorf_w "failed to decode response JSON: " (libError err)))
    | Ok rpcRes =>
        match response_Error rpcRes with
        | Some e => ret (result, Some (ResponseError_error e))
        | None =>
            if bool_decide (response_ID rpcRes ≠ id) then
              ret (result, Some (errors_New "response ID is not matched to request"))
            else
              do u <- call_Unmarshal (response_Result rpcRes) result;
              match snd u with
              | Some err =>
                  ret (fst u, Some (fmt_Errorf_w "failed to decode result JSON: "
                                                 (libError err)))
              | None => ret (fst u, None)
              end
        end
    end.

(** [func (client *Client) Call(ctx, url, method, params, result,
      opts ...Option) error].
    The deferred calls run when the function returns, last deferred
    first: [io.Copy(ioutil.Discard, res.Body)], then
    [res.Body.Close()]. *)
Definition Call (client : Client) (ctx : context_Context) (url method : string)
    (params : option GoValue) (result : Out) (opts : list Option)
  : M (Out * option error) :=
  if String.eqb method EmptyString then
    ret (result, Some (errors_New "method is empty"))
  else
    let callOpts := apply_options opts in
    do b <- requestBody method params;
    match b with
    | Failed err => ret (result, Some err)
    | Ok (id, body) =>
        do r <- newRequest client ctx url body callOpts;
        match r with
        | Failed err => ret (result, Some err)
        | Ok req =>
            do d <- call_Do (httpClient client) req;
            match d with
            | Failed err =>
                ret (result, Some (fmt_Errorf_w "failed to post request: " (libError err)))
            | Ok res =>
                do out <- Call_response res id result;
                run call_Copy_Discard (Response_Body res);
                run call_Close (Response_Body res);
                ret out
            end
        end
    end.

(** The state in which a program starts: nothing called yet. *)
Definition start (w : World) : state := {| world := w; trace := [] |}.
End Client.

(** ** A stub of the libraries

    One concrete choice of the library types and functions, small enough
    to compute with: identifiers are counted upwards, the caller's
    location holds an integer, and the network is a server that answers
    every request with one canned reply. *)

Module Stub.

Inductive value : Type :=
| VEmptyMap                (* map[string]interface{}{} *)
| VInt (n : Z)
| VString (s : string)
| VChan.                   (* a channel: not encodable *)

Inductive lib_error : Type :=
| ErrUnsupportedType
| ErrMissingScheme
| ErrConnectionRefused
| ErrSyntax
| ErrUnmarshalType.

(** What the body stream of a reply carries: bytes that are no JSON
    document, or a response envelope with its result bytes, its error
    (code and message) and its identifier. *)
Inductive body : Type :=
| Garbage
| Envelope (result : string) (err : option (Z * string)) (id : N).

(** What the server does with a request whose identifier is [id]. *)
Inductive server : Type :=
| Refuse
| Status (code : Z) (text : string)
| Answer (result : string)
| AnswerOther (result : string)
| Reject (code : Z) (message : string)
| RejectOther (code : Z) (message : string)
| Babble.

Record world : Type := {
  next_id : N;
  behaviour : server;
  drained : list body;
  closed : list body
}.

#[global] Instance types : GoTypes := {|
  context_Context := unit;
  GoValue := value;
  Out := Z;
  uuid_UUID := N;
  http_Client := nat;
  io_ReadCloser := body;
  LibError := lib_error;
  World := world
|}.

Definition new_id (w : world) : N * world :=
  (next_id w,
   {| next_id := N.succ (next_id w); behaviour := behaviour w;
      drained := drained w; closed := closed w |}).

Definition encode (v : value) : outcome lib_error json :=
  match v with
  | VEmptyMap => Ok (JObject [])
  | VInt n => Ok (JNumber (pretty n))
  | VString s => Ok (JString s)
  | VChan => Failed ErrUnsupportedType
  end.

(** Compact text, strings written without escapes. *)
Definition quote : string := String (ascii_of_N 34) EmptyString.

Fixpoint text (j : json) : string :=
  match j with
  | JNull => "null"
  | JBool true => "true"
  | JBool false => "false"
  | JNumber lit => lit
  | JString s => quote +:+ s +:+ quote
  | JArray items =>
      "[" +:+ String.concat "," (map text items) +:+ "]"
  | JObject members =>
      "{" +:+ String.concat ","
                ((fix each (ms : list (string * json)) : list string :=
                    match ms with
                    | [] => []
                    | (k, v) :: ms' => (quote +:+ k +:+ quote +:+ ":" +:+ text v) :: each ms'
                    end) members) +:+ "}"
  end.

(** A decimal literal, digit by digit. *)
Definition digit (c : ascii) : option N :=
  let n := N_of_ascii c in
  if ((48 <=? n) && (n <=? 57))%N then Some (n - 48)%N else None.

Fixpoint digits (acc : N) (s : string) : option N :=
  match s with
  | EmptyString => Some acc
  | String c s' =>
      match digit c with
      | Some d => digits (10 * acc + d)%N s'
      | None => None
      end
  end.

(** Unmarshal into an integer: [null] leaves it, a literal sets it,
    anything else is an error. *)
Definition unmarshal (data : string) (out : Z) : Z * option lib_error :=
  if String.eqb data "null" then (out, None)
  else match data with
       | EmptyString => (out, Some ErrSyntax)
       | _ => match digits 0 data with
              | Some n => (Z.of_N n, None)
              | None => (out, Some ErrUnmarshalType)
              end
       end.

Definition check (ctx : unit) (url : string) : option lib_error :=
  if String.prefix ":" url then Some ErrMissingScheme else None.

(** First letter and letters after a hyphen in upper case, the others in
    lower case. *)
Definition upper (c : ascii) : ascii :=
  let n := N_of_ascii c in
  if ((97 <=? n) && (n <=? 122))%N then ascii_of_N (n - 32) else c.

Definition lower (c : ascii) : ascii :=
  let n := N_of_ascii c in
  if ((65 <=? n) && (n <=? 90))%N then ascii_of_N (n + 32) else c.

Fixpoint canonical (up : bool) (s : string) : string :=
  match s with
  | EmptyString => EmptyString
  | String c s' =>
      String (if up then upper c else lower c)
             (canonical (Ascii.eqb c "-"%char) s')
  end.

Definition error_text (e : lib_error) : string :=
  match e with
  | ErrUnsupportedType => "json: unsupported type"
  | ErrMissingScheme => "missing protocol scheme"
  | ErrConnectionRefused => "connection refused"
  | ErrSyntax => "unexpected end of JSON input"
  | ErrUnmarshalType => "json: cannot unmarshal into Go value of type int"
  end.

(** The reply to the request carrying the identifier drawn last. *)
Definition reply (w : world) : outcome lib_error http_Response :=
  let id := N.pred (next_id w) in
  let ok b := Ok {| Response_Status := "200 OK"; Response_StatusCode := 200;
                    Response_Body := b |} in
  match behaviour w with
  | Refuse => Failed ErrConnectionRefused
  | Status code t =>
      Ok {| Response_Status := t; Response_StatusCode := code;
            Response_Body := Garbage |}
  | Answer r => ok (Envelope r None id)
  | AnswerOther r => ok (Envelope r None (N.succ id))
  | Reject c m => ok (Envelope "null" (Some (c, m)) id)
  | RejectOther c m => ok (Envelope "null" (Some (c, m)) (N.succ id))
  | Babble => ok Garbage
  end.

Definition decode (b : body) (w : world) : outcome lib_error response * world :=
  match b with
  | Garbage => (Failed ErrSyntax, w)
  | Envelope r e id =>
      (Ok {| response_JSONRPC := "2.0";
             response_Result := r;
             response_Error :=
               match e with
               | None => None
               | Some (c, m) =>
                   Some {| ResponseError_Code := c;
                           ResponseError_Message := m;
                           ResponseError_Data := None |}
               end;
             response_ID := id |}, w)
  end.

Definition drain (b : body) (w : world) : world :=
  {| next_id := next_id w; behaviour := behaviour w;
     drained := (drained w ++ [b])%list; closed := closed w |}.

Definition close (b : body) (w : world) : world :=
  {| next_id := next_id w; behaviour := behaviour w;
     drained := drained w; closed := (closed w ++ [b])%list |}.

#[global] Instance lib : GoLib := {|
  uuid_New := new_id;
  uuid_MarshalText := fun id : N => pretty id;
  json_encode := encode;
  json_text := text;
  json_Decode_response := decode;
  json_Unmarshal := unmarshal;
  http_DefaultClient := 0%nat;
  http_NewRequest_check := check;
  CanonicalMIMEHeaderKey := canonical true;
  http_Client_Do := fun _ _ w => (reply w, w);
  io_Copy_Discard := drain;
  io_Close := close;
  LibError_Error := error_text;
  map_range := map_to_list;
  map_range_perm := fun m => reflexivity (map_to_list m)
|}.

(** A world whose server behaves as [b], and a client with and without
    a transport of its own. *)
Definition fresh (b : server) : world :=
  {| next_id := 7; behaviour := b; drained := []; closed := [] |}.

Definition plain : Client := {| Client_HTTPClient := None |}.
Definition custom : Client := {| Client_HTTPClient := Some 5%nat |}.

Definition endpoint : string := "https://x/rpc".

(** The stub over a network in which the transport [5] alone reaches the
    server, every other transport, the default one included, being refused
    the connection. *)
Definition routed : GoLib :=
  with_Do lib (fun (c : nat) (_ : http_Request) (w : world) =>
                 if Nat.eqb c 5 then (reply w, w)
                 else (Failed ErrConnectionRefused, w)).

(** The request a call for [method] sends to [endpoint] in a [fresh]
    world: [ps] is the [params] member of the envelope, if any, and [h]
    the header. *)
Definition request (method : string) (ps : list (string * json))
    (h : http_Header) : http_Request :=
  {| Request_Method := http_MethodPost;
     Request_URL := endpoint;
     Request_Header := h;
     Request_Body :=
       text (JObject ([("jsonrpc", JString "2.0"); ("method", JString method)]
                      ++ ps ++ [("id", JString "7")]));
     Request_ctx := tt |}.

End Stub.

(** ** Specification predicates *)

Section Predicates.
Context {T : GoTypes} {L : GoLib}.

(** The first half of a call, lines 88-112: the method name is not
    empty, the request with identifier [id] is marshalled and built, and
    the transport returns the response [res], leaving the state [s]. *)
Definition Call_receives (client : Client) (ctx : context_Context)
    (url method : string) (params : option GoValue) (opts : list Option)
    (w : World) (id : uuid_UUID) (res : http_Response) (s : state) : Prop :=
  method ≠ EmptyString ∧
  ∃ body s1 req s2,
    requestBody method params (start w) = (Ok (id, body), s1) ∧
    newRequest client ctx url body (apply_options opts) s1 = (Ok req, s2) ∧
    call_Do (httpClient client) req s2 = (Ok res, s).

(** The response has status 200 and its body decodes to the envelope
    [rpcRes]. *)
Definition decodes_to (res : http_Response) (s : state)
    (rpcRes : response) (s' : state) : Prop :=
  Response_StatusCode res = http_StatusOK ∧
  call_Decode (Response_Body res) s = (Ok rpcRes, s').

(** The deferred calls of [Call], run in state [s]. *)
Definition deferred (body : io_ReadCloser) (s : state) : state :=
  {| world := io_Close body (io_Copy_Discard body (world s));
     trace := (trace s ++ [EvDiscard body; EvClose body])%list |}.

Definition is_Unmarshal (e : event) : bool :=
  match e with EvUnmarshal _ => true | _ => false end.

Definition is_Decode (e : event) : bool :=
  match e with EvDecode _ => true | _ => false end.

Definition is_Do (e : event) : bool :=
  match e with EvDo _ _ => true | _ => false end.

(** The error of an identifier that does not match. *)
Definition ID_mismatch : error :=
  errorString "response ID is not matched to request".

Definition is_UUIDNew (e : event) : bool :=
  match e with EvUUIDNew _ => true | _ => false end.

Definition is_NewRequest (e : event) : bool :=
  match e with EvNewRequest _ _ => true | _ => false end.

Definition is_Close (e : event) : bool :=
  match e with EvClose _ => true | _ => false end.

(** The calls that touch a response body. *)
Definition on_body (e : event) : bool :=
  match e with
  | EvDecode _ | EvDiscard _ | EvClose _ => true
  | _ => false
  end.

(** The errors [Call] returns, one constructor per [return] statement
    with a non-nil error. *)
Inductive Call_error : error → Prop :=
| empty_method :
    Call_error (errorString "method is empty")
| marshal_failed (e : LibError) :
    Call_error (wrapError ("failed to marshal request: " +:+ LibError_Error e)
                          (libError e))
| request_failed (e : LibError) :
    Call_error (wrapError ("failed to create new HTTP request: " +:+ LibError_Error e)
                          (libError e))
| post_failed (e : LibError) :
    Call_error (wrapError ("failed to post request: " +:+ LibError_Error e)
                          (libError e))
| status_not_OK (status : string) :
    Call_error (errorString ("server does not respond 200 OK: " +:+ status))
| envelope_failed (e : LibError) :
    Call_error (wrapError ("failed to decode response JSON: " +:+ LibError_Error e)
                          (libError e))
| server_error (e : ResponseError) :
    Call_error (ResponseError_error e)
| ID_not_matched :
    Call_error ID_mismatch
| result_failed (e : LibError) :
    Call_error (wrapError ("failed to decode result JSON: " +:+ LibError_Error e)
                          (libError e)).

(** The values that the entries of a header set, visited in the order
    given, add under the canonical key of [k]. *)
Fixpoint entry_values (k : string) (entries : list (string * list string))
  : list string :=
  match entries with
  | [] => []
  | (key, values) :: rest =>
      ((if decide (CanonicalMIMEHeaderKey key = CanonicalMIMEHeaderKey k)
        then values else []) ++ entry_values k rest)%list
  end.
End Predicates.

(** Case analysis on every [match] and [if] of the goal. *)
Ltac case_split :=
  repeat match goal with
         | |- context [match ?x with _ => _ end] => destruct x eqn:?
         | |- context [if ?x then _ else _] => destruct x eqn:?
         end.

(** ** Properties *)

Section Properties.
Context {T : GoTypes} {L : GoLib}.

Implicit Types (client : Client) (ctx : context_Context)
  (url method : string) (params : option GoValue) (result : Out)
  (opts : list Option) (w : World) (s : state) (id : uuid_UUID)
  (res : http_Response) (rpcRes : response).

(** *** How [Call] runs *)

Lemma bind_ext {A B : Type} (m : M A) (k1 k2 : A → M B) s :
  (∀ a s', k1 a s' = k2 a s') → bind m k1 s = bind m k2 s.
Proof. intros Hk. unfold bind. by destruct (m s). Qed.

Lemma method_nonempty method :
  method ≠ EmptyString → String.eqb method EmptyString = false.
Proof. intros Hm. by apply String.eqb_neq. Qed.

(** Once the transport has returned a response, [Call] is the rest of
    the function followed by the two deferred calls. *)
Lemma Call_after_response client ctx url method params result opts w id res s :
  Call_receives client ctx url method params opts w id res s →
  Call client ctx url method params result opts (start w) =
    let (out, s') := Call_response res id result s in
    (out, deferred (Response_Body res) s').
Proof.
  intros [Hm (body & s1 & req & s2 & Hb & Hr & Hd)].
  unfold Call. rewrite (method_nonempty _ Hm).
  unfold bind at 1. rewrite Hb.
  unfold bind at 1. rewrite Hr.
  unfold bind at 1. rewrite Hd.
  unfold bind at 1.
  destruct (Call_response res id result s) as [out s'].
  unfold bind, call_Copy_Discard, call_Close, emit, on_world, ret, deferred.
  simpl. by rewrite <- app_assoc.
Qed.

(** A status other than 200 ends the function at once. *)
Lemma Call_response_status res id result s :
  Response_StatusCode res ≠ http_StatusOK →
  Call_response res id result s =
    (result,
     Some (errorString ("server does not respond 200 OK: " +:+ Response_Status res)),
     s).
Proof.
  intros Hs. unfold Call_response.
  rewrite bool_decide_eq_true_2 by done. reflexivity.
Qed.

(** An envelope with an error ends it with that error. *)
Lemma Call_response_error res id result s rpcRes s' e :
  decodes_to res s rpcRes s' →
  response_Error rpcRes = Some e →
  Call_response res id result s = (result, Some (ResponseError_error e), s').
Proof.
  intros [Hs Hd] He. unfold Call_response.
  rewrite bool_decide_eq_false_2 by (intros Hn; by apply Hn).
  unfold bind. rewrite Hd, He. reflexivity.
Qed.

(** An envelope without error and with another identifier ends it with
    the mismatch error. *)
Lemma Call_response_mismatch res id result s rpcRes s' :
  decodes_to res s rpcRes s' →
  response_Error rpcRes = None →
  response_ID rpcRes ≠ id →
  Call_response res id result s = (result, Some ID_mismatch, s').
Proof.
  intros [Hs Hd] He Hid. unfold Call_response.
  rewrite bool_decide_eq_false_2 by (intros Hn; by apply Hn).
  unfold bind. rewrite Hd, He.
  rewrite bool_decide_eq_true_2 by done. reflexivity.
Qed.

(** An envelope without error and with the identifier of the request:
    the result is unmarshalled into the caller's location. *)
Lemma Call_response_result res id result s rpcRes s' :
  decodes_to res s rpcRes s' →
  response_Error rpcRes = None →
  response_ID rpcRes = id →
  Call_response res id result s =
    (fst (json_Unmarshal (response_Result rpcRes) result),
     match snd (json_Unmarshal (response_Result rpcRes) result) with
     | Some err =>
         Some (fmt_Errorf_w "failed to decode result JSON: " (libError err))
     | None => None
     end,
     {| world := world s';
        trace := (trace s' ++ [EvUnmarshal (response_Result rpcRes)])%list |}).
Proof.
  intros [Hs Hd] He Hid. unfold Call_response.
  rewrite bool_decide_eq_false_2 by (intros Hn; by apply Hn).
  unfold bind at 1. rewrite Hd, He.
  rewrite bool_decide_eq_false_2 by (intros Hn; by apply Hn).
  unfold bind, call_Unmarshal, bind, emit, ret. simpl.
  destruct (json_Unmarshal (response_Result rpcRes) result) as [out [err|]];
    reflexivity.
Qed.

(** The trace up to the response: no result has been unmarshalled and
    no envelope decoded. *)
Lemma Call_receives_trace client ctx url method params opts w id res s :
  Call_receives client ctx url method params opts w id res s →
  ∃ r req,
    trace s = [EvUUIDNew id; EvMarshal r; EvNewRequest http_MethodPost url;
               EvDo (httpClient client) req].
Proof.
  intros [Hm (body & s1 & req & s2 & Hb & Hr & Hd)].
  unfold requestBody, call_uuid_New, call_Marshal, bind, on_world, emit, ret, start
    in Hb. simpl in Hb.
  destruct (uuid_New w) as [id0 w1]. simpl in Hb.
  destruct (json_Marshal_request _) as [b|err] in Hb; [|discriminate].
  injection Hb as <- <- <-.
  unfold newRequest, http_NewRequestWithContext, bind, emit, ret in Hr.
  simpl in Hr.
  destruct (http_NewRequest_check ctx url) as [err|]; [discriminate|].
  injection Hr as <- <-.
  unfold call_Do, bind, emit, on_world in Hd. simpl in Hd.
  destruct (http_Client_Do _ _ w1) as [o w2]. injection Hd as -> <-.
  simpl. eauto.
Qed.

Lemma decodes_to_trace res s rpcRes s' :
  decodes_to res s rpcRes s' →
  trace s' = (trace s ++ [EvDecode (Response_Body res)])%list.
Proof.
  intros [_ Hd]. unfold call_Decode, bind, emit, on_world in Hd. simpl in Hd.
  destruct (json_Decode_response _ _) as [o w']. injection Hd as _ <-.
  reflexivity.
Qed.

(** The whole run when the envelope carries an error. *)
Lemma Call_error_run client ctx url method params result opts w id res s rpcRes s' e :
  Call_receives client ctx url method params opts w id res s →
  decodes_to res s rpcRes s' →
  response_Error rpcRes = Some e →
  Call client ctx url method params result opts (start w) =
    (result, Some (ResponseError_error e), deferred (Response_Body res) s').
Proof.
  intros Hrecv Hdec He.
  rewrite (Call_after_response _ _ _ _ _ _ _ _ _ _ _ Hrecv).
  by rewrite (Call_response_error _ _ _ _ _ _ _ Hdec He).
Qed.

(** The trace of a run that stops after decoding the envelope. *)
Lemma trace_stop_after_decode client ctx url method params opts w id res s rpcRes s' :
  Call_receives client ctx url method params opts w id res s →
  decodes_to res s rpcRes s' →
  existsb is_Unmarshal (trace (deferred (Response_Body res) s')) = false.
Proof.
  intros Hrecv Hdec.
  destruct (Call_receives_trace _ _ _ _ _ _ _ _ _ _ Hrecv) as (r & req & Ht).
  unfold deferred. simpl.
  rewrite (decodes_to_trace _ _ _ _ Hdec), Ht. reflexivity.
Qed.
(** *** The steps of [Call] one by one *)

Lemma requestBody_run method params s :
  requestBody method params s =
    let id := fst (uuid_New (world s)) in
    let r := {| request_JSONRPC := Version; request_Method := method;
                request_Params := params; request_ID := id |} in
    (match json_Marshal_request r with
     | Failed err =>
         Failed (fmt_Errorf_w "failed to marshal request: " (libError err))
     | Ok b => Ok (id, b)
     end,
     {| world := snd (uuid_New (world s));
        trace := (trace s ++ [EvUUIDNew id; EvMarshal r])%list |}).
Proof.
  unfold requestBody, call_uuid_New, call_Marshal, bind, on_world, emit, ret.
  destruct (uuid_New (world s)) as [id w1]. simpl.
  rewrite <- app_assoc. simpl.
  by destruct (json_Marshal_request _).
Qed.

Lemma newRequest_run client ctx url body callOpts s :
  newRequest client ctx url body callOpts s =
    (match http_NewRequest_check ctx url with
     | Some err =>
         Failed (fmt_Errorf_w "failed to create new HTTP request: " (libError err))
     | None =>
         Ok {| Request_Method := http_MethodPost;
               Request_URL := url;
               Request_Header :=
                 match callOptions_Header callOpts with
                 | None => Header_Add "Content-Type" "text/json" ∅
                 | Some header =>
                     add_entries (map_range header)
                                 (Header_Add "Content-Type" "text/json" ∅)
                 end;
               Request_Body := body;
               Request_ctx := ctx |}
     end,
     {| world := world s;
        trace := (trace s ++ [EvNewRequest http_MethodPost url])%list |}).
Proof.
  unfold newRequest, http_NewRequestWithContext, bind, emit, ret.
  by destruct (http_NewRequest_check ctx url).
Qed.

Lemma call_Do_run c req s :
  call_Do c req s =
    (fst (http_Client_Do c req (world s)),
     {| world := snd (http_Client_Do c req (world s));
        trace := (trace s ++ [EvDo c req])%list |}).
Proof.
  unfold call_Do, bind, emit, on_world. simpl.
  by destruct (http_Client_Do c req (world s)).
Qed.

(** After the response [Call] makes no further request. *)
Lemma Call_response_trace res id result s :
  ∃ evs, trace (snd (Call_response res id result s)) = (trace s ++ evs)%list ∧
         existsb is_Do evs = false.
Proof.
  unfold Call_response.
  case_bool_decide.
  { exists []. simpl. by rewrite app_nil_r. }
  unfold bind at 1, call_Decode, bind, emit, on_world. simpl.
  destruct (json_Decode_response _ _) as [[rpcRes|err] w'].
  2: { by exists [EvDecode (Response_Body res)]. }
  destruct (response_Error rpcRes).
  { by exists [EvDecode (Response_Body res)]. }
  case_bool_decide.
  { by exists [EvDecode (Response_Body res)]. }
  unfold call_Unmarshal, bind, emit, ret. simpl.
  exists [EvDecode (Response_Body res); EvUnmarshal (response_Result rpcRes)].
  rewrite <- app_assoc.
  by destruct (snd (json_Unmarshal _ _)).
Qed.

Lemma not_Do_elem (evs : list event) c req :
  existsb is_Do evs = false → EvDo c req ∉ evs.
Proof.
  intros Hn Hin. apply list_elem_of_In in Hin.
  assert (existsb is_Do evs = true) as Ht
    by (apply existsb_exists; by exists (EvDo c req)).
  congruence.
Qed.

(** Every request [Call] sends is the one [newRequest] built from the
    body [requestBody] made, and it goes to [httpClient]. *)
Lemma Call_Do_inv client ctx url method params result opts w c req :
  EvDo c req ∈ trace (snd (Call client ctx url method params result opts (start w))) →
  method ≠ EmptyString ∧ c = httpClient client ∧
  ∃ id body s1 s2,
    requestBody method params (start w) = (Ok (id, body), s1) ∧
    newRequest client ctx url body (apply_options opts) s1 = (Ok req, s2).
Proof.
  unfold Call.
  destruct (String.eqb method EmptyString) eqn:Hm.
  { simpl. intros Hin. by apply elem_of_nil in Hin. }
  apply String.eqb_neq in Hm.
  unfold bind at 1.
  destruct (requestBody method params (start w)) as [[[id body]|err] s1] eqn:Hb.
  2: { rewrite requestBody_run in Hb. injection Hb as _ <-. simpl.
       rewrite !elem_of_cons, elem_of_nil. intros [?|[?|?]]; done. }
  assert (∃ a b, trace s1 = [a; b] ∧ is_Do a = false ∧ is_Do b = false)
    as (a & b & Ht1 & Ha & Hb').
  { rewrite requestBody_run in Hb. injection Hb as _ <-. simpl. eauto. }
  unfold bind at 1.
  destruct (newRequest client ctx url body (apply_options opts) s1)
    as [[req'|err] s2] eqn:Hr.
  2: { rewrite newRequest_run in Hr. injection Hr as _ <-. simpl. rewrite Ht1.
       simpl. rewrite !elem_of_cons, elem_of_nil.
       intros [<-|[<-|[?|?]]]; done. }
  assert (trace s2 = [a; b; EvNewRequest http_MethodPost url]) as Ht2.
  { rewrite newRequest_run in Hr. injection Hr as _ <-. simpl. by rewrite Ht1. }
  unfold bind at 1. rewrite call_Do_run.
  set (s3 := {| world := _; trace := _ |}).
  assert (trace s3 = [a; b; EvNewRequest http_MethodPost url;
                      EvDo (httpClient client) req']) as Ht3.
  { subst s3. simpl. by rewrite Ht2. }
  assert (∀ evs, existsb is_Do evs = false →
                 EvDo c req ∈ (trace s3 ++ evs)%list →
                 c = httpClient client ∧ req = req') as Hfind.
  { intros evs Hevs. rewrite Ht3. simpl.
    rewrite !elem_of_cons.
    intros [<-|[<-|[?|[Heq|Hin]]]]; try done.
    - by injection Heq as -> ->.
    - by apply not_Do_elem in Hin. }
  intros Hin.
  cut (c = httpClient client ∧ req = req').
  { intros [-> ->]. split; [done|]. split; [done|]. eauto 10. }
  destruct (fst (http_Client_Do (httpClient client) req' (world s2)))
    as [res|err].
  - unfold bind at 1 in Hin.
    destruct (Call_response_trace res id result s3) as (evs & Hevs & Hno).
    destruct (Call_response res id result s3) as [out s4]. simpl in Hevs.
    unfold bind, call_Copy_Discard, call_Close, emit, on_world, ret in Hin.
    simpl in Hin. rewrite Hevs, <- !app_assoc in Hin.
    apply (Hfind (evs ++ [EvDiscard (Response_Body res)] ++
                         [EvClose (Response_Body res)])%list); [|subst s3; simpl; by rewrite <- app_assoc].
    rewrite existsb_app, Hno. reflexivity.
  - simpl in Hin. apply (Hfind []); [done|]. by rewrite app_nil_r.
Qed.

(** *** Headers *)

Lemma Header_Values_Add k key value (h : http_Header) :
  Header_Values k (Header_Add key value h) =
    if decide (CanonicalMIMEHeaderKey key = CanonicalMIMEHeaderKey k)
    then (Header_Values k h ++ [value])%list
    else Header_Values k h.
Proof.
  unfold Header_Values, Header_Add.
  rewrite lookup_insert. case_decide as Heq; [|done].
  simpl. by rewrite Heq.
Qed.

Lemma Header_Add_prefix k key value (h : http_Header) :
  Header_Values k h `prefix_of` Header_Values k (Header_Add key value h).
Proof.
  rewrite Header_Values_Add. case_decide; [|done].
  by apply prefix_app_r.
Qed.

Lemma add_values_prefix k key values (h : http_Header) :
  Header_Values k h `prefix_of` Header_Values k (add_values key values h).
Proof.
  revert h. induction values as [|v rest IH]; intros h; simpl; [done|].
  etrans; [apply (Header_Add_prefix k key v)|apply IH].
Qed.

Lemma add_entries_prefix k entries (h : http_Header) :
  Header_Values k h `prefix_of` Header_Values k (add_entries entries h).
Proof.
  revert h. induction entries as [|[key values] rest IH]; intros h; simpl; [done|].
  etrans; [apply (add_values_prefix k key values)|apply IH].
Qed.

Lemma prefix_elem {A} (l1 l2 : list A) x : l1 `prefix_of` l2 → x ∈ l1 → x ∈ l2.
Proof. intros [k ->] Hx. apply elem_of_app. by left. Qed.

Lemma add_values_elem key values value (h : http_Header) :
  value ∈ values → value ∈ Header_Values key (add_values key values h).
Proof.
  revert h. induction values as [|v rest IH]; intros h Hin.
  { by apply elem_of_nil in Hin. }
  simpl. apply elem_of_cons in Hin as [->|Hin]; [|by apply IH].
  apply (prefix_elem _ _ _ (add_values_prefix key key rest _)).
  rewrite Header_Values_Add, decide_True by done.
  apply elem_of_app. right. by apply list_elem_of_singleton.
Qed.

Lemma add_entries_elem entries key values value (h : http_Header) :
  (key, values) ∈ entries → value ∈ values →
  value ∈ Header_Values key (add_entries entries h).
Proof.
  revert h. induction entries as [|[k vs] rest IH]; intros h Hin Hv.
  { by apply elem_of_nil in Hin. }
  simpl. apply elem_of_cons in Hin as [Heq|Hin]; [|by apply IH].
  injection Heq as <- <-.
  apply (prefix_elem _ _ _ (add_entries_prefix key rest _)).
  by apply add_values_elem.
Qed.

(** The header [newRequest] sets first stays first. *)
Lemma Header_Get_first key value entries :
  Header_Get key (add_entries entries (Header_Add key value ∅)) = value.
Proof.
  unfold Header_Get.
  destruct (add_entries_prefix key entries (Header_Add key value ∅)) as [k ->].
  rewrite Header_Values_Add, decide_True by done.
  unfold Header_Values. by rewrite lookup_empty.
Qed.

(** *** Options *)

Lemma apply_options_each opts : apply_options opts = apply_each opts callOptions_zero.
Proof. unfold apply_options. by destruct opts. Qed.

Lemma apply_each_app opts1 opts2 callOpts :
  apply_each (opts1 ++ opts2) callOpts = apply_each opts2 (apply_each opts1 callOpts).
Proof.
  revert callOpts. induction opts1 as [|opt rest IH]; intros callOpts; simpl; [done|].
  apply IH.
Qed.
End Properties.

(** ** The claims of the specification *)

Section Claims.
Context {T : GoTypes} {L : GoLib}.

Implicit Types (client : Client) (ctx : context_Context)
  (url method : string) (params : option GoValue) (result : Out)
  (opts : list Option) (w : World) (s : state) (id : uuid_UUID)
  (res : http_Response) (rpcRes : response).

(** C2.  With an empty method name [Call] returns the error
    [method is empty] and the state it was started in: no library call is
    recorded and the world is untouched, so no HTTP request is built or
    sent.  This holds for every context, URL, params, result location and
    option list. *)
Theorem Call_empty_method client ctx url params result opts s :
  Call client ctx url EmptyString params result opts s =
    (result, Some (errors_New "method is empty"), s).
Proof. reflexivity. Qed.

(** C3.  When the transport returns status 200 and the body decodes to an
    envelope whose error is [e], not nil, [Call] returns [e] itself as its
    error (so its code, message and data are those of the envelope), the
    caller's location keeps its contents, and no result is unmarshalled. *)
Theorem Call_structured_error
    client ctx url method params result opts w id res s rpcRes s' e :
  Call_receives client ctx url method params opts w id res s →
  decodes_to res s rpcRes s' →
  response_Error rpcRes = Some e →
  let run := Call client ctx url method params result opts (start w) in
  fst run = (result, Some (ResponseError_error e)) ∧
  existsb is_Unmarshal (trace (snd run)) = false.
Proof.
  intros Hrecv Hdec He run. subst run.
  rewrite (Call_error_run _ _ _ _ _ _ _ _ _ _ _ _ _ _ Hrecv Hdec He). simpl.
  split; [reflexivity|].
  exact (trace_stop_after_decode _ _ _ _ _ _ _ _ _ _ _ _ Hrecv Hdec).
Qed.

(** C10.  When the envelope carries both an error [e] and an identifier
    other than the request's, [Call] returns [e], not the mismatch error:
    the error is tested before the identifier is compared. *)
Theorem Call_error_before_ID
    client ctx url method params result opts w id res s rpcRes s' e :
  Call_receives client ctx url method params opts w id res s →
  decodes_to res s rpcRes s' →
  response_Error rpcRes = Some e →
  response_ID rpcRes ≠ id →
  let run := Call client ctx url method params result opts (start w) in
  snd (fst run) = Some (ResponseError_error e) ∧
  snd (fst run) ≠ Some ID_mismatch.
Proof.
  intros Hrecv Hdec He _ run. subst run.
  rewrite (Call_error_run _ _ _ _ _ _ _ _ _ _ _ _ _ _ Hrecv Hdec He). simpl.
  split; [reflexivity | discriminate].
Qed.

(** C4, amended.  When the envelope carries no error and an identifier
    other than the request's, [Call] returns the error
    [response ID is not matched to request], the caller's location keeps
    its contents, and no result is unmarshalled, whatever the result
    payload is. *)
Theorem Call_ID_mismatch
    client ctx url method params result opts w id res s rpcRes s' :
  Call_receives client ctx url method params opts w id res s →
  decodes_to res s rpcRes s' →
  response_Error rpcRes = None →
  response_ID rpcRes ≠ id →
  let run := Call client ctx url method params result opts (start w) in
  fst run = (result, Some ID_mismatch) ∧
  existsb is_Unmarshal (trace (snd run)) = false.
Proof.
  intros Hrecv Hdec He Hid run. subst run.
  rewrite (Call_after_response _ _ _ _ _ _ _ _ _ _ _ Hrecv).
  rewrite (Call_response_mismatch _ _ _ _ _ _ Hdec He Hid). simpl.
  split; [reflexivity|].
  exact (trace_stop_after_decode _ _ _ _ _ _ _ _ _ _ _ _ Hrecv Hdec).
Qed.

(** C1, amended.  When the transport returns status 200 and the body
    decodes to an envelope with no error, the identifier of the request
    and a result payload that [json.Unmarshal] accepts for the caller's
    location, [Call] leaves in the location exactly what
    [json.Unmarshal] of that payload leaves there, and returns no
    error. *)
Theorem Call_result
    client ctx url method params result opts w id res s rpcRes s' :
  Call_receives client ctx url method params opts w id res s →
  decodes_to res s rpcRes s' →
  response_Error rpcRes = None →
  response_ID rpcRes = id →
  snd (json_Unmarshal (response_Result rpcRes) result) = None →
  fst (Call client ctx url method params result opts (start w)) =
    (fst (json_Unmarshal (response_Result rpcRes) result), None).
Proof.
  intros Hrecv Hdec He Hid Hok.
  rewrite (Call_after_response _ _ _ _ _ _ _ _ _ _ _ Hrecv).
  rewrite (Call_response_result _ _ _ _ _ _ Hdec He Hid), Hok.
  reflexivity.
Qed.

(** C5.  Once the transport has returned a response, every way out of
    [Call] ends with the body drained and then closed.  When the status
    code is not 200 (201 and 204 included) [Call] returns the error
    [server does not respond 200 OK: ] followed by the status text,
    the caller's location keeps its contents, and the envelope is never
    decoded: the two deferred calls are all that follows the response. *)
Theorem Call_status_not_OK
    client ctx url method params result opts w id res s :
  Call_receives client ctx url method params opts w id res s →
  let run := Call client ctx url method params result opts (start w) in
  snd run = deferred (Response_Body res) (snd (Call_response res id result s)) ∧
  (Response_StatusCode res ≠ http_StatusOK →
   fst run =
     (result,
      Some (errorString ("server does not respond 200 OK: " +:+ Response_Status res))) ∧
   snd run = deferred (Response_Body res) s ∧
   existsb is_Decode (trace (snd run)) = false).
Proof.
  intros Hrecv run. subst run.
  rewrite (Call_after_response _ _ _ _ _ _ _ _ _ _ _ Hrecv).
  split.
  - by destruct (Call_response res id result s).
  - intros Hs. rewrite (Call_response_status _ _ _ _ Hs). simpl.
    split; [reflexivity|]. split; [reflexivity|].
    destruct (Call_receives_trace _ _ _ _ _ _ _ _ _ _ Hrecv) as (r & req & ->).
    reflexivity.
Qed.

(** C9.  The standard error codes. *)
Theorem ErrorCode_values :
  ParseError = (-32700)%Z ∧
  InvalidRequest = (-32600)%Z ∧
  MethodNotFound = (-32601)%Z ∧
  InvalidParams = (-32602)%Z ∧
  InternalError = (-32603)%Z.
Proof. repeat split. Qed.

(** C6.  The transport is read off the client: the default one when the
    [HTTPClient] field is nil, the instance in that field otherwise.
    Every request that any [Call] of the client sends, in whatever world
    it runs, goes to exactly that transport; once the request is built,
    [Call] is what the [Do] of that transport makes of it: the error it
    returns, wrapped, in the world it left, or the handling of the
    response it returns, in the world it left, followed by the deferred
    calls; and what any other transport would do, the default one
    included when the client has its own, changes nothing of [Call]. *)
Theorem Call_transport client :
  let transport := match Client_HTTPClient client with
                   | None => http_DefaultClient
                   | Some c => c
                   end in
  httpClient {| Client_HTTPClient := None |} = http_DefaultClient ∧
  (∀ c : http_Client, httpClient {| Client_HTTPClient := Some c |} = c) ∧
  (∀ ctx url method params result opts w (c : http_Client) (req : http_Request),
     EvDo c req ∈ trace (snd (Call client ctx url method params result opts (start w))) →
     c = transport) ∧
  (∀ ctx url method params result opts w id (body : string) s1
     (req : http_Request) s2,
     method ≠ EmptyString →
     requestBody method params (start w) = (Ok (id, body), s1) →
     newRequest client ctx url body (apply_options opts) s1 = (Ok req, s2) →
     let sent := {| world := snd (http_Client_Do transport req (world s2));
                    trace := (trace s2 ++ [EvDo transport req])%list |} in
     Call client ctx url method params result opts (start w) =
       match fst (http_Client_Do transport req (world s2)) with
       | Failed err =>
           (result,
            Some (wrapError ("failed to post request: " +:+ LibError_Error err)
                            (libError err)),
            sent)
       | Ok res =>
           (fst (Call_response res id result sent),
            deferred (Response_Body res) (snd (Call_response res id result sent)))
       end) ∧
  (∀ Do : http_Client → http_Request → World →
          outcome LibError http_Response * World,
     (∀ req w, Do transport req w = http_Client_Do transport req w) →
     ∀ ctx url method params result opts s,
       Call (L := with_Do L Do) client ctx url method params result opts s =
       Call client ctx url method params result opts s).
Proof.
  intros transport.
  split; [reflexivity|]. split; [reflexivity|]. split; [|split].
  - intros ctx url method params result opts w c req Hin.
    by destruct (Call_Do_inv _ _ _ _ _ _ _ _ _ _ Hin) as (_ & -> & _).
  - intros ctx url method params result opts w id body s1 req s2 Hm Hb Hr sent.
    change transport with (httpClient client) in *.
    destruct (fst (http_Client_Do (httpClient client) req (world s2)))
      as [res|err] eqn:Hd.
    + assert (Call_receives client ctx url method params opts w id res sent)
        as Hrecv.
      { split; [done|]. exists body, s1, req, s2.
        split; [done|]. split; [done|].
        rewrite call_Do_run, Hd. reflexivity. }
      rewrite (Call_after_response _ _ _ _ _ _ _ _ _ _ _ Hrecv).
      by destruct (Call_response res id result sent).
    + unfold Call. rewrite (method_nonempty _ Hm).
      unfold bind at 1. rewrite Hb.
      unfold bind at 1. rewrite Hr.
      unfold bind at 1. rewrite call_Do_run, Hd. reflexivity.
  - intros Do HDo ctx url method params result opts s.
    change transport with (httpClient client) in HDo.
    unfold Call. destruct (String.eqb method EmptyString); [reflexivity|].
    change (requestBody (L := with_Do L Do) method params)
      with (requestBody (L := L) method params).
    apply bind_ext. intros [[id body]|err] s1; [|reflexivity].
    change (newRequest (L := with_Do L Do) client ctx url body
              (apply_options opts))
      with (newRequest (L := L) client ctx url body (apply_options opts)).
    apply bind_ext. intros [req|err] s2; [|reflexivity].
    change (httpClient (L := with_Do L Do) client) with (httpClient client).
    unfold bind at 1 5.
    assert (call_Do (L := with_Do L Do) (httpClient client) req s2 =
            call_Do (httpClient client) req s2) as ->.
    { unfold call_Do, bind, emit, on_world. simpl. by rewrite HDo. }
    reflexivity.
Qed.

(** C7.  The options are applied one after the other, first to last,
    starting from the zero options value; a [WithHeader] that comes after
    another one replaces its header set; and in every request [Call]
    sends, [Content-Type] still reads [text/json], while every value of
    every key of the final header set is among the values of that key in
    the request's header. *)
Theorem Call_options client ctx url method params result w :
  apply_options [] = callOptions_zero ∧
  (∀ opts (opt : Option),
     apply_options (opts ++ [opt]) = apply opt (apply_options opts)) ∧
  (∀ (pre mid : list Option) (h1 h2 : option http_Header),
     callOptions_Header
       (apply_options (pre ++ WithHeader h1 :: mid ++ [WithHeader h2])) = h2) ∧
  (∀ opts (c : http_Client) (req : http_Request),
     EvDo c req ∈ trace (snd (Call client ctx url method params result opts (start w))) →
     Header_Get "Content-Type" (Request_Header req) = "text/json" ∧
     ∀ (header : http_Header) (key : string) (values : list string) (value : string),
       callOptions_Header (apply_options opts) = Some header →
       header !! key = Some values →
       value ∈ values →
       value ∈ Header_Values key (Request_Header req)).
Proof.
  split; [reflexivity|]. split; [|split].
  - intros opts opt. by rewrite !apply_options_each, apply_each_app.
  - intros pre mid h1 h2.
    rewrite apply_options_each.
    change (pre ++ WithHeader h1 :: mid ++ [WithHeader h2])%list
      with (pre ++ (WithHeader h1 :: mid) ++ [WithHeader h2])%list.
    by rewrite app_assoc, apply_each_app.
  - intros opts c req Hin.
    destruct (Call_Do_inv _ _ _ _ _ _ _ _ _ _ Hin)
      as (_ & _ & id & body & s1 & s2 & _ & Hr).
    rewrite newRequest_run in Hr.
    destruct (http_NewRequest_check ctx url); [discriminate|].
    injection Hr as <- _. simpl.
    split.
    + destruct (callOptions_Header (apply_options opts)) as [header|].
      * apply Header_Get_first.
      * apply (Header_Get_first _ _ []).
    + intros header key values value -> Hk Hv.
      apply (add_entries_elem _ key values); [|done].
      rewrite (map_range_perm header).
      by apply elem_of_map_to_list.
Qed.

(** C8.  The envelope [requestBody] marshals is a JSON object whose
    [jsonrpc] member is the string [2.0], whose [method] member is the
    method name and whose [id] member is the text of the identifier just
    generated.  With nil params it has no [params] member at all (not a
    [null] one); with non-nil params it has a [params] member holding
    their encoding, so params that encode as the empty object appear as a
    present empty object.  That text is the body of the request [Call]
    sends. *)
Theorem requestBody_envelope method w :
  let id := fst (uuid_New w) in
  let envelope (ps : list (string * json)) : json :=
    JObject ([("jsonrpc", JString "2.0"); ("method", JString method)] ++ ps ++
             [("id", JString (uuid_MarshalText id))]) in
  (∀ ps, json_member "jsonrpc" (envelope ps) = Some (JString "2.0") ∧
         json_member "method" (envelope ps) = Some (JString method)) ∧
  (fst (requestBody method None (start w)) = Ok (id, json_text (envelope [])) ∧
   json_member "params" (envelope []) = None ∧
   json_member "id" (envelope []) = Some (JString (uuid_MarshalText id))) ∧
  (∀ (v : GoValue) (p : json),
     json_encode v = Ok p →
     fst (requestBody method (Some v) (start w)) =
       Ok (id, json_text (envelope [("params", p)])) ∧
     json_member "params" (envelope [("params", p)]) = Some p ∧
     json_member "id" (envelope [("params", p)]) =
       Some (JString (uuid_MarshalText id))) ∧
  (∀ (v : GoValue),
     json_encode v = Ok (JObject []) →
     fst (requestBody method (Some v) (start w)) =
       Ok (id, json_text (envelope [("params", JObject [])]))) ∧
  (∀ client ctx url params result opts (c : http_Client) (req : http_Request),
     EvDo c req ∈ trace (snd (Call client ctx url method params result opts (start w))) →
     method ≠ EmptyString ∧
     fst (requestBody method params (start w)) = Ok (id, Request_Body req)).
Proof.
  intros id envelope.
  assert (∀ (v : GoValue) (p : json),
            json_encode v = Ok p →
            fst (requestBody method (Some v) (start w)) =
              Ok (id, json_text (envelope [("params", p)]))) as Hsome.
  { intros v p Hp. rewrite requestBody_run. simpl.
    unfold json_Marshal_request, request_json. simpl. by rewrite Hp. }
  split; [by intros ps|]. split; [|split; [|split]].
  - split; [|by split]. by rewrite requestBody_run.
  - intros v p Hp. split; [by apply Hsome|by split].
  - intros v Hp. by apply Hsome.
  - intros client ctx url params result opts c req Hin.
    destruct (Call_Do_inv _ _ _ _ _ _ _ _ _ _ Hin)
      as (Hm & _ & id' & body & s1 & s2 & Hb & Hr).
    split; [done|].
    rewrite newRequest_run in Hr.
    destruct (http_NewRequest_check ctx url); [discriminate|].
    injection Hr as <- _. simpl.
    rewrite Hb. simpl.
    rewrite requestBody_run in Hb. simpl in Hb.
    destruct (json_Marshal_request _); [|discriminate].
    by injection Hb as <- _ _.
Qed.

End Claims.

(** ** The claims on runs against the stub *)

(** C3 on a run: the server rejects the call with code -32601. *)
Lemma Call_structured_error_witness :
  let run := Call Stub.plain tt Stub.endpoint "query" None 0 []
                  (start (Stub.fresh (Stub.Reject MethodNotFound "Method not found"))) in
  fst run =
    (0, Some (ResponseError_error
                {| ResponseError_Code := -32601;
                   ResponseError_Message := "Method not found";
                   ResponseError_Data := None |})) ∧
  existsb is_Unmarshal (trace (snd run)) = false.
Proof.
  eapply (Call_structured_error (T := Stub.types) (L := Stub.lib)
            Stub.plain tt Stub.endpoint "query" None 0 []
            (Stub.fresh (Stub.Reject MethodNotFound "Method not found")) 7%N).
  - split; [discriminate|]. do 4 eexists.
    split; [vm_compute; reflexivity|]. split; vm_compute; reflexivity.
  - split; vm_compute; reflexivity.
  - reflexivity.
Defined.

(** C10 on a run: the server rejects the call and answers under another
    identifier. *)
Lemma Call_error_before_ID_witness :
  let run := Call Stub.plain tt Stub.endpoint "query" None 0 []
                  (start (Stub.fresh (Stub.RejectOther InternalError "boom"))) in
  snd (fst run) =
    Some (ResponseError_error
            {| ResponseError_Code := -32603;
               ResponseError_Message := "boom";
               ResponseError_Data := None |}) ∧
  snd (fst run) ≠ Some ID_mismatch.
Proof.
  eapply (Call_error_before_ID (T := Stub.types) (L := Stub.lib)
            Stub.plain tt Stub.endpoint "query" None 0 []
            (Stub.fresh (Stub.RejectOther InternalError "boom")) 7%N).
  - split; [discriminate|]. do 4 eexists.
    split; [vm_compute; reflexivity|]. split; vm_compute; reflexivity.
  - split; vm_compute; reflexivity.
  - reflexivity.
  - vm_compute. discriminate.
Defined.

(** C4 as stated fails: an envelope with another identifier that also
    carries an error makes [Call] return that error, not the mismatch
    error. *)
Lemma Call_ID_mismatch_counterexample :
  ¬ (∀ (T : GoTypes) (L : GoLib) (client : Client) (ctx : context_Context)
       (url method : string) (params : option GoValue) (result : Out)
       (opts : list Option) (w : World) (id : uuid_UUID) (res : http_Response)
       (s : state) (rpcRes : response) (s' : state),
       Call_receives client ctx url method params opts w id res s →
       decodes_to res s rpcRes s' →
       response_ID rpcRes ≠ id →
       let run := Call client ctx url method params result opts (start w) in
       fst run = (result, Some ID_mismatch) ∧
       existsb is_Unmarshal (trace (snd run)) = false).
Proof.
  intros Hclaim.
  edestruct (Hclaim Stub.types Stub.lib Stub.plain tt Stub.endpoint "query"
               None 0 [] (Stub.fresh (Stub.RejectOther InternalError "boom")) 7%N)
    as [Hrun _].
  - split; [discriminate|]. do 4 eexists.
    split; [vm_compute; reflexivity|]. split; vm_compute; reflexivity.
  - split; vm_compute; reflexivity.
  - vm_compute. discriminate.
  - vm_compute in Hrun. discriminate.
Qed.

(** C4, amended, on a run: a result-bearing envelope under another
    identifier. *)
Lemma Call_ID_mismatch_witness :
  let run := Call Stub.plain tt Stub.endpoint "query" None 0 []
                  (start (Stub.fresh (Stub.AnswerOther "42"))) in
  fst run = (0, Some ID_mismatch) ∧
  existsb is_Unmarshal (trace (snd run)) = false.
Proof.
  eapply (Call_ID_mismatch (T := Stub.types) (L := Stub.lib)
            Stub.plain tt Stub.endpoint "query" None 0 []
            (Stub.fresh (Stub.AnswerOther "42")) 7%N).
  - split; [discriminate|]. do 4 eexists.
    split; [vm_compute; reflexivity|]. split; vm_compute; reflexivity.
  - split; vm_compute; reflexivity.
  - reflexivity.
  - vm_compute. discriminate.
Defined.

(** C1 as stated fails: the envelope has no error, the identifier of the
    request and the result payload [true]; the caller's location holds an
    integer, [json.Unmarshal] refuses the payload, and [Call] returns the
    error of that. *)
Lemma Call_result_counterexample :
  ¬ (∀ (T : GoTypes) (L : GoLib) (client : Client) (ctx : context_Context)
       (url method : string) (params : option GoValue) (result : Out)
       (opts : list Option) (w : World) (id : uuid_UUID) (res : http_Response)
       (s : state) (rpcRes : response) (s' : state),
       Call_receives client ctx url method params opts w id res s →
       decodes_to res s rpcRes s' →
       response_Error rpcRes = None →
       response_ID rpcRes = id →
       fst (Call client ctx url method params result opts (start w)) =
         (fst (json_Unmarshal (response_Result rpcRes) result), None)).
Proof.
  intros Hclaim.
  opose proof* (Hclaim Stub.types Stub.lib Stub.plain tt Stub.endpoint "ping"
                  None 0 [] (Stub.fresh (Stub.Answer "true")) 7%N) as Hrun.
  - split; [discriminate|]. do 4 eexists.
    split; [vm_compute; reflexivity|]. split; vm_compute; reflexivity.
  - split; vm_compute; reflexivity.
  - reflexivity.
  - reflexivity.
  - vm_compute in Hrun. discriminate.
Qed.

(** C1, amended, on a run: the server answers [ping] with the result 42
    under the identifier of the request. *)
Lemma Call_result_witness :
  fst (Call Stub.plain tt Stub.endpoint "ping" None 0 []
            (start (Stub.fresh (Stub.Answer "42")))) = (42, None).
Proof.
  opose proof* (Call_result (T := Stub.types) (L := Stub.lib)
                  Stub.plain tt Stub.endpoint "ping" None 0 []
                  (Stub.fresh (Stub.Answer "42")) 7%N) as Hrun.
  - split; [discriminate|]. do 4 eexists.
    split; [vm_compute; reflexivity|]. split; vm_compute; reflexivity.
  - split; vm_compute; reflexivity.
  - reflexivity.
  - reflexivity.
  - reflexivity.
  - rewrite Hrun. reflexivity.
Defined.

(** C5 on a run: the server answers with status 503. *)
Lemma Call_status_not_OK_witness :
  let run := Call Stub.plain tt Stub.endpoint "ping" None 0 []
                  (start (Stub.fresh (Stub.Status 503 "503 Service Unavailable"))) in
  fst run =
    (0, Some (errorString "server does not respond 200 OK: 503 Service Unavailable")) ∧
  Stub.drained (world (snd run)) = [Stub.Garbage] ∧
  Stub.closed (world (snd run)) = [Stub.Garbage] ∧
  existsb is_Decode (trace (snd run)) = false.
Proof.
  opose proof* (Call_status_not_OK (T := Stub.types) (L := Stub.lib)
                  Stub.plain tt Stub.endpoint "ping" None 0 []
                  (Stub.fresh (Stub.Status 503 "503 Service Unavailable")) 7%N)
    as [_ Hrun].
  - split; [discriminate|]. do 4 eexists.
    split; [vm_compute; reflexivity|]. split; vm_compute; reflexivity.
  - destruct Hrun as (Hout & Hstate & Hdecode); [vm_compute; discriminate|].
    split; [exact Hout|]. rewrite Hstate.
    split; [reflexivity|]. split; [reflexivity|].
    rewrite <- Hstate. exact Hdecode.
Defined.

(** C6 on two runs over the network in which the transport [5] alone
    reaches the server: the client that holds that transport gets the
    result, the client without a transport of its own, on the default
    one, is refused. *)
Lemma Call_transport_witness :
  fst (Call (L := Stub.routed) Stub.custom tt Stub.endpoint "ping" None 0 []
            (start (Stub.fresh (Stub.Answer "42")))) = (42, None) ∧
  fst (Call (L := Stub.routed) Stub.plain tt Stub.endpoint "ping" None 0 []
            (start (Stub.fresh (Stub.Answer "42")))) =
    (0, Some (wrapError "failed to post request: connection refused"
                        (libError Stub.ErrConnectionRefused))).
Proof.
  split.
  - opose proof* (proj1 (proj2 (proj2 (proj2
                    (Call_transport (T := Stub.types) (L := Stub.routed)
                       Stub.custom))))
                    tt Stub.endpoint "ping" None 0 []
                    (Stub.fresh (Stub.Answer "42")) 7%N) as Hrun.
    + discriminate.
    + vm_compute. reflexivity.
    + vm_compute. reflexivity.
    + rewrite Hrun. vm_compute. reflexivity.
  - opose proof* (proj1 (proj2 (proj2 (proj2
                    (Call_transport (T := Stub.types) (L := Stub.routed)
                       Stub.plain))))
                    tt Stub.endpoint "ping" None 0 []
                    (Stub.fresh (Stub.Answer "42")) 7%N) as Hrun.
    + discriminate.
    + vm_compute. reflexivity.
    + vm_compute. reflexivity.
    + rewrite Hrun. vm_compute. reflexivity.
Defined.

(** C7 on a run: two [WithHeader] options, the second with a
    [content-type] entry of its own. *)
Lemma Call_options_witness :
  let header1 : http_Header := {[ "X-Custom-Header" := ["XXXX"] ]} in
  let header2 : http_Header :=
    <[ "content-type" := ["application/json"] ]> {[ "x-trace" := ["a"; "b"] ]} in
  let opts := [WithHeader (Some header1); WithHeader (Some header2)] in
  let req := Stub.request "ping" []
               (add_entries (map_to_list header2)
                            (Header_Add "Content-Type" "text/json" ∅)) in
  callOptions_Header (apply_options opts) = Some header2 ∧
  EvDo 0%nat req
    ∈ trace (snd (Call Stub.plain tt Stub.endpoint "ping" None 0 opts
                       (start (Stub.fresh (Stub.Answer "42"))))) ∧
  Header_Get "Content-Type" (Request_Header req) = "text/json" ∧
  "b" ∈ Header_Values "x-trace" (Request_Header req).
Proof.
  intros header1 header2 opts req.
  assert (EvDo 0%nat req
            ∈ trace (snd (Call Stub.plain tt Stub.endpoint "ping" None 0 opts
                               (start (Stub.fresh (Stub.Answer "42")))))) as Hin.
  { vm_compute. do 3 apply list_elem_of_further. apply list_elem_of_here. }
  destruct (proj2 (proj2 (proj2
              (Call_options (T := Stub.types) (L := Stub.lib)
                 Stub.plain tt Stub.endpoint "ping" None 0
                 (Stub.fresh (Stub.Answer "42"))))) opts 0%nat req Hin)
    as [Hct Hall].
  split; [reflexivity|]. split; [exact Hin|]. split; [exact Hct|].
  apply (Hall header2 "x-trace" ["a"; "b"] "b").
  - reflexivity.
  - vm_compute. reflexivity.
  - apply list_elem_of_further, list_elem_of_here.
Defined.

(** C8 on a run: params that are an empty map. *)
Lemma requestBody_envelope_witness :
  fst (requestBody "ping" (Some Stub.VEmptyMap) (start (Stub.fresh (Stub.Answer "42")))) =
    Ok (7%N, Stub.text (JObject [("jsonrpc", JString "2.0"); ("method", JString "ping");
                                 ("params", JObject []); ("id", JString "7")])).
Proof.
  apply (proj1 (proj2 (proj2 (proj2
           (requestBody_envelope (T := Stub.types) (L := Stub.lib) "ping"
              (Stub.fresh (Stub.Answer "42")))))) Stub.VEmptyMap).
  reflexivity.
Defined.

(** The two bodies differ as the specification shows them. *)
Example envelope_texts :
  Stub.text (JObject [("jsonrpc", JString "2.0"); ("method", JString "ping");
                      ("id", JString "7")]) =
    "{" +:+ Stub.quote +:+ "jsonrpc" +:+ Stub.quote +:+ ":" +:+
    Stub.quote +:+ "2.0" +:+ Stub.quote +:+ "," +:+
    Stub.quote +:+ "method" +:+ Stub.quote +:+ ":" +:+
    Stub.quote +:+ "ping" +:+ Stub.quote +:+ "," +:+
    Stub.quote +:+ "id" +:+ Stub.quote +:+ ":" +:+
    Stub.quote +:+ "7" +:+ Stub.quote +:+ "}".
Proof. reflexivity. Qed.

(** [Error()] of a structured error. *)
Example ResponseError_Error_text :
  ResponseError_Error (T := Stub.types)
    {| ResponseError_Code := MethodNotFound;
       ResponseError_Message := "Method not found";
       ResponseError_Data := None |} = "Method not found (-32601)".
Proof. reflexivity. Qed.

(** ** Further properties of [Call] *)

Section Extras.
Context {T : GoTypes} {L : GoLib}.

Implicit Types (client : Client) (ctx : context_Context)
  (url method : string) (params : option GoValue) (result : Out)
  (opts : list Option) (w : World) (s : state) (id : uuid_UUID)
  (res : http_Response) (rpcRes : response).

(** The whole of [Call] for a method name that is not empty, one branch
    per [return] statement. *)
Lemma Call_run client ctx url method params result opts w :
  method ≠ EmptyString →
  Call client ctx url method params result opts (start w) =
    let id := fst (uuid_New w) in
    let w1 := snd (uuid_New w) in
    let r := {| request_JSONRPC := Version; request_Method := method;
                request_Params := params; request_ID := id |} in
    let t2 := [EvUUIDNew id; EvMarshal r] in
    match json_Marshal_request r with
    | Failed e =>
        (result, Some (fmt_Errorf_w "failed to marshal request: " (libError e)),
         {| world := w1; trace := t2 |})
    | Ok body =>
        let t3 := (t2 ++ [EvNewRequest http_MethodPost url])%list in
        match http_NewRequest_check ctx url with
        | Some e =>
            (result,
             Some (fmt_Errorf_w "failed to create new HTTP request: " (libError e)),
             {| world := w1; trace := t3 |})
        | None =>
            let req :=
              {| Request_Method := http_MethodPost;
                 Request_URL := url;
                 Request_Header :=
                   match callOptions_Header (apply_options opts) with
                   | None => Header_Add "Content-Type" "text/json" ∅
                   | Some header =>
                       add_entries (map_range header)
                                   (Header_Add "Content-Type" "text/json" ∅)
                   end;
                 Request_Body := body;
                 Request_ctx := ctx |} in
            let t4 := (t3 ++ [EvDo (httpClient client) req])%list in
            let w2 := snd (http_Client_Do (httpClient client) req w1) in
            match fst (http_Client_Do (httpClient client) req w1) with
            | Failed e =>
                (result, Some (fmt_Errorf_w "failed to post request: " (libError e)),
                 {| world := w2; trace := t4 |})
            | Ok res =>
                let b := Response_Body res in
                if bool_decide (Response_StatusCode res ≠ http_StatusOK) then
                  (result,
                   Some (errorString ("server does not respond 200 OK: "
                                      +:+ Response_Status res)),
                   deferred b {| world := w2; trace := t4 |})
                else
                  let t5 := (t4 ++ [EvDecode b])%list in
                  let w3 := snd (json_Decode_response b w2) in
                  match fst (json_Decode_response b w2) with
                  | Failed e =>
                      (result,
                       Some (fmt_Errorf_w "failed to decode response JSON: "
                                          (libError e)),
                       deferred b {| world := w3; trace := t5 |})
                  | Ok rpcRes =>
                      match response_Error rpcRes with
                      | Some e =>
                          (result, Some (ResponseError_error e),
                           deferred b {| world := w3; trace := t5 |})
                      | None =>
                          if bool_decide (response_ID rpcRes ≠ id) then
                            (result, Some ID_mismatch,
                             deferred b {| world := w3; trace := t5 |})
                          else
                            let u := json_Unmarshal (response_Result rpcRes) result in
                            (fst u,
                             match snd u with
                             | Some e =>
                                 Some (fmt_Errorf_w "failed to decode result JSON: "
                                                    (libError e))
                             | None => None
                             end,
                             deferred b
                               {| world := w3;
                                  trace := (t5 ++ [EvUnmarshal (response_Result rpcRes)])%list |})
                      end
                  end
            end
        end
    end.
Proof.
  intros Hm. unfold Call. rewrite (method_nonempty _ Hm).
  unfold bind at 1. rewrite requestBody_run. simpl.
  destruct (json_Marshal_request _) as [body|e]; [|reflexivity].
  unfold bind at 1. rewrite newRequest_run. simpl.
  destruct (http_NewRequest_check ctx url) as [e|]; [reflexivity|].
  unfold bind at 1. rewrite call_Do_run. simpl.
  destruct (fst (http_Client_Do _ _ _)) as [res|e]; [|reflexivity].
  unfold bind at 1, Call_response, call_Decode, call_Unmarshal,
    call_Copy_Discard, call_Close, bind, emit, on_world, ret, deferred.
  simpl.
  case_bool_decide as Hs; simpl.
  { rewrite <- ?app_assoc; reflexivity. }
  destruct (json_Decode_response _ _) as [[rpcRes|e] w3]; simpl.
  2: { rewrite <- ?app_assoc; reflexivity. }
  destruct (response_Error rpcRes) as [e|]; simpl.
  { rewrite <- ?app_assoc; reflexivity. }
  case_bool_decide as Hid; simpl.
  { rewrite <- ?app_assoc; reflexivity. }
  destruct (json_Unmarshal _ _) as [out [e|]]; simpl;
    (rewrite <- ?app_assoc; reflexivity).
Qed.

Lemma call_Decode_run (body : io_ReadCloser) s :
  call_Decode body s =
    (fst (json_Decode_response body (world s)),
     {| world := snd (json_Decode_response body (world s));
        trace := (trace s ++ [EvDecode body])%list |}).
Proof.
  unfold call_Decode, bind, emit, on_world. simpl.
  by destruct (json_Decode_response body (world s)).
Qed.

(** *** Headers, exactly *)

Lemma add_values_Values k key values (h : http_Header) :
  Header_Values k (add_values key values h) =
    (Header_Values k h ++
     if decide (CanonicalMIMEHeaderKey key = CanonicalMIMEHeaderKey k)
     then values else [])%list.
Proof.
  revert h. induction values as [|v rest IH]; intros h; simpl.
  { case_decide; by rewrite app_nil_r. }
  rewrite IH, Header_Values_Add.
  case_decide; [|done]. by rewrite <- app_assoc.
Qed.

Lemma add_entries_Values k entries (h : http_Header) :
  Header_Values k (add_entries entries h) =
    (Header_Values k h ++ entry_values k entries)%list.
Proof.
  revert h. induction entries as [|[key values] rest IH]; intros h; simpl.
  { by rewrite app_nil_r. }
  by rewrite IH, add_values_Values, <- app_assoc.
Qed.

Lemma entry_values_Permutation k (es1 es2 : list (string * list string)) :
  es1 ≡ₚ es2 → entry_values k es1 ≡ₚ entry_values k es2.
Proof.
  induction 1 as [|[key values] es1 es2 _ IH|[k1 v1] [k2 v2] es|es1 es2 es3 _ IH1 _ IH2];
    simpl.
  - done.
  - by rewrite IH.
  - rewrite !app_assoc. f_equiv. apply Permutation_app_comm.
  - by etrans.
Qed.

Lemma entry_values_none k (entries : list (string * list string)) :
  (∀ key' values', (key', values') ∈ entries →
     CanonicalMIMEHeaderKey key' ≠ CanonicalMIMEHeaderKey k) →
  entry_values k entries = [].
Proof.
  induction entries as [|[key values] rest IH]; intros Hno; simpl; [done|].
  rewrite decide_False by (apply (Hno key values), list_elem_of_here).
  apply IH. intros key' values' Hin. apply (Hno key' values').
  by apply list_elem_of_further.
Qed.

(** The entries of a set in which no other key has the canonical form of
    [key] add exactly the values of [key]. *)
Lemma entry_values_unique key values (entries : list (string * list string)) :
  NoDup (entries.*1) →
  (key, values) ∈ entries →
  (∀ key' values', (key', values') ∈ entries →
     CanonicalMIMEHeaderKey key' = CanonicalMIMEHeaderKey key → key' = key) →
  entry_values key entries = values.
Proof.
  induction entries as [|[k vs] rest IH]; intros Hnd Hin Huniq.
  { by apply elem_of_nil in Hin. }
  simpl in *. apply NoDup_cons in Hnd as [Hk Hnd].
  apply elem_of_cons in Hin as [[= <- <-]|Hin].
  - rewrite decide_True by done.
    rewrite entry_values_none; [by rewrite app_nil_r|].
    intros key' values' Hin' Hc.
    assert (key' = key) as -> by (apply (Huniq key' values'); [by right|done]).
    apply Hk. apply list_elem_of_fmap. by exists (key, values').
  - rewrite decide_False.
    + simpl. apply IH; [done|done|].
      intros key' values' Hin'. apply (Huniq key' values'). by right.
    + intros Hc.
      assert (k = key) as -> by (apply (Huniq k vs); [by left|done]).
      apply Hk. apply list_elem_of_fmap. by exists (key, values).
Qed.

(** Keys and value lists of a header built by [Header.Add] alone. *)
Lemma Header_Add_keys (S : string → Prop) key value (h : http_Header) :
  S (CanonicalMIMEHeaderKey key) →
  (∀ k vs, h !! k = Some vs → vs ≠ [] ∧ S k) →
  ∀ k vs, Header_Add key value h !! k = Some vs → vs ≠ [] ∧ S k.
Proof.
  intros HS Hh k vs. unfold Header_Add. rewrite lookup_insert.
  case_decide as Hk.
  - intros [= <-]. subst k. split; [|done].
    intros Hnil. by apply app_eq_nil in Hnil as [_ ?].
  - apply Hh.
Qed.

Lemma add_values_keys (S : string → Prop) key values (h : http_Header) :
  (values ≠ [] → S (CanonicalMIMEHeaderKey key)) →
  (∀ k vs, h !! k = Some vs → vs ≠ [] ∧ S k) →
  ∀ k vs, add_values key values h !! k = Some vs → vs ≠ [] ∧ S k.
Proof.
  revert h. induction values as [|v rest IH]; intros h HS Hh; simpl; [done|].
  apply IH.
  - intros _. by apply HS.
  - apply Header_Add_keys; [by apply HS|done].
Qed.

Lemma add_entries_keys (S : string → Prop) entries (h : http_Header) :
  (∀ key values, (key, values) ∈ entries → values ≠ [] →
     S (CanonicalMIMEHeaderKey key)) →
  (∀ k vs, h !! k = Some vs → vs ≠ [] ∧ S k) →
  ∀ k vs, add_entries entries h !! k = Some vs → vs ≠ [] ∧ S k.
Proof.
  revert h. induction entries as [|[key values] rest IH]; intros h HS Hh; simpl;
    [done|].
  apply IH.
  - intros key' values' Hin. apply (HS key' values'). by right.
  - apply add_values_keys; [|done]. apply (HS key values). by left.
Qed.

(** X1.  Every error [Call] returns is one of nine: the empty-method
    error, a library error wrapped under one of the five messages
    [failed to marshal request], [failed to create new HTTP request],
    [failed to post request], [failed to decode response JSON],
    [failed to decode result JSON], the status error, the error of the
    server's envelope, or the identifier mismatch. *)
Theorem Call_error_taxonomy client ctx url method params result opts w err :
  snd (fst (Call client ctx url method params result opts (start w))) = Some err →
  Call_error err.
Proof.
  destruct (decide (method = EmptyString)) as [->|Hm].
  { intros [= <-]. constructor. }
  rewrite (Call_run _ _ _ _ _ _ _ _ Hm); cbv zeta; case_split; simpl; intros [= <-]; constructor.
Qed.

(** X2.  Every request [Call] sends is a POST to the URL given,
    carrying the context given. *)
Theorem Call_request_line client ctx url method params result opts w
    (c : http_Client) (req : http_Request) :
  EvDo c req ∈ trace (snd (Call client ctx url method params result opts (start w))) →
  Request_Method req = "POST" ∧ Request_URL req = url ∧ Request_ctx req = ctx.
Proof.
  intros Hin.
  destruct (Call_Do_inv _ _ _ _ _ _ _ _ _ _ Hin)
    as (_ & _ & id & body & s1 & s2 & _ & Hr).
  rewrite newRequest_run in Hr.
  destruct (http_NewRequest_check ctx url); [discriminate|].
  by injection Hr as <- _.
Qed.

Lemma Call_Do_header client ctx url method params result opts w
    (c : http_Client) (req : http_Request) :
  EvDo c req ∈ trace (snd (Call client ctx url method params result opts (start w))) →
  Request_Header req =
    add_entries (match callOptions_Header (apply_options opts) with
                 | None => []
                 | Some header => map_range header
                 end)
                (Header_Add "Content-Type" "text/json" ∅).
Proof.
  intros Hin.
  destruct (Call_Do_inv _ _ _ _ _ _ _ _ _ _ Hin)
    as (_ & _ & id & body & s1 & s2 & _ & Hr).
  rewrite newRequest_run in Hr.
  destruct (http_NewRequest_check ctx url); [discriminate|].
  injection Hr as <- _. simpl.
  by destruct (callOptions_Header (apply_options opts)).
Qed.

(** X3.  The values of a header in the request sent, for any key [k]:
    [text/json] first if [k] names [Content-Type], followed by the values
    of the entries of the option's header set whose keys have the
    canonical form of [k], in the order the entries were visited; so, up
    to the order, [text/json] and those values and nothing else. *)
Theorem Call_header_values client ctx url method params result opts w
    (c : http_Client) (req : http_Request) (k : string) :
  EvDo c req ∈ trace (snd (Call client ctx url method params result opts (start w))) →
  let own := if decide (CanonicalMIMEHeaderKey "Content-Type" = CanonicalMIMEHeaderKey k)
             then ["text/json"] else [] in
  match callOptions_Header (apply_options opts) with
  | None => Header_Values k (Request_Header req) = own
  | Some header =>
      Header_Values k (Request_Header req) =
        (own ++ entry_values k (map_range header))%list ∧
      Header_Values k (Request_Header req) ≡ₚ
        (own ++ entry_values k (map_to_list header))%list
  end.
Proof.
  intros Hin own. rewrite (Call_Do_header _ _ _ _ _ _ _ _ _ _ Hin).
  rewrite add_entries_Values, Header_Values_Add.
  assert (Header_Values k (∅ : http_Header) = []) as ->
    by (unfold Header_Values; by rewrite lookup_empty).
  assert ((if decide (CanonicalMIMEHeaderKey "Content-Type" = CanonicalMIMEHeaderKey k)
           then ([] ++ ["text/json"])%list else []) = own) as ->
    by (subst own; by case_decide).
  destruct (callOptions_Header (apply_options opts)) as [header|]; simpl.
  - split; [done|]. f_equiv. apply entry_values_Permutation, map_range_perm.
  - by rewrite app_nil_r.
Qed.

(** X4.  Params that [encoding/json] cannot encode make [Call] return
    that error wrapped under [failed to marshal request: ]; the caller's
    location keeps its contents, an identifier has been drawn, and no
    HTTP request is built or sent. *)
Theorem Call_marshal_failure client ctx url method (v : GoValue) result opts w
    (e : LibError) :
  method ≠ EmptyString →
  json_encode v = Failed e →
  Call client ctx url method (Some v) result opts (start w) =
    (result,
     Some (wrapError ("failed to marshal request: " +:+ LibError_Error e) (libError e)),
     {| world := snd (uuid_New w);
        trace := [EvUUIDNew (fst (uuid_New w));
                  EvMarshal {| request_JSONRPC := Version;
                               request_Method := method;
                               request_Params := Some v;
                               request_ID := fst (uuid_New w) |}] |}).
Proof.
  intros Hm He. rewrite (Call_run _ _ _ _ _ _ _ _ Hm). cbv zeta.
  unfold json_Marshal_request, request_json. simpl. by rewrite He.
Qed.

(** X5.  When [http.NewRequestWithContext] refuses the context or URL,
    [Call] returns that error wrapped under
    [failed to create new HTTP request: ]; the caller's location keeps its
    contents, nothing is sent and the world is as the draw of the
    identifier left it. *)
Theorem Call_request_failure client ctx url method params result opts w id
    (body : string) s (e : LibError) :
  method ≠ EmptyString →
  requestBody method params (start w) = (Ok (id, body), s) →
  http_NewRequest_check ctx url = Some e →
  Call client ctx url method params result opts (start w) =
    (result,
     Some (wrapError ("failed to create new HTTP request: " +:+ LibError_Error e)
                     (libError e)),
     {| world := world s;
        trace := (trace s ++ [EvNewRequest "POST" url])%list |}) ∧
  world s = snd (uuid_New w) ∧
  existsb is_Do (trace s ++ [EvNewRequest "POST" url]) = false.
Proof.
  intros Hm Hb He. unfold Call. rewrite (method_nonempty _ Hm).
  unfold bind at 1. rewrite Hb.
  unfold bind at 1. rewrite newRequest_run, He.
  split; [reflexivity|].
  rewrite requestBody_run in Hb. by injection Hb as _ <-.
Qed.

(** X6.  When the transport returns an error instead of a response,
    [Call] returns it wrapped under [failed to post request: ], in the
    state the transport left; the caller's location keeps its contents and
    no body is decoded, drained or closed, there being none. *)
Theorem Call_transport_failure client ctx url method params result opts w id
    (body : string) s1 (req : http_Request) s2 (e : LibError) s3 :
  method ≠ EmptyString →
  requestBody method params (start w) = (Ok (id, body), s1) →
  newRequest client ctx url body (apply_options opts) s1 = (Ok req, s2) →
  call_Do (httpClient client) req s2 = (Failed e, s3) →
  Call client ctx url method params result opts (start w) =
    (result,
     Some (wrapError ("failed to post request: " +:+ LibError_Error e) (libError e)),
     s3) ∧
  existsb on_body (trace s3) = false.
Proof.
  intros Hm Hb Hr Hd. unfold Call. rewrite (method_nonempty _ Hm).
  unfold bind at 1. rewrite Hb.
  unfold bind at 1. rewrite Hr.
  unfold bind at 1. rewrite Hd.
  split; [reflexivity|].
  rewrite requestBody_run in Hb. injection Hb as _ <-.
  rewrite newRequest_run in Hr. injection Hr as _ <-.
  rewrite call_Do_run in Hd. by injection Hd as _ <-.
Qed.

(** X7.  When the status is 200 and the body does not decode to an
    envelope, [Call] returns the decoder's error wrapped under
    [failed to decode response JSON: ]; the caller's location keeps its
    contents, no result is unmarshalled, and the body is drained and
    closed. *)
Theorem Call_envelope_failure
    client ctx url method params result opts w id res s (e : LibError) s' :
  Call_receives client ctx url method params opts w id res s →
  Response_StatusCode res = http_StatusOK →
  call_Decode (Response_Body res) s = (Failed e, s') →
  Call client ctx url method params result opts (start w) =
    (result,
     Some (wrapError ("failed to decode response JSON: " +:+ LibError_Error e)
                     (libError e)),
     deferred (Response_Body res) s') ∧
  existsb is_Unmarshal (trace (deferred (Response_Body res) s')) = false.
Proof.
  intros Hrecv Hs Hd.
  rewrite (Call_after_response _ _ _ _ _ _ _ _ _ _ _ Hrecv).
  unfold Call_response.
  rewrite bool_decide_eq_false_2 by (intros Hn; by apply Hn).
  unfold bind at 1. rewrite Hd.
  split; [reflexivity|].
  destruct (Call_receives_trace _ _ _ _ _ _ _ _ _ _ Hrecv) as (r & req & Ht).
  unfold call_Decode, bind, emit, on_world in Hd. simpl in Hd.
  destruct (json_Decode_response _ _) as [o w']. injection Hd as _ <-.
  simpl. by rewrite Ht.
Qed.

(** X8.  When the envelope is in order and [json.Unmarshal] refuses the
    result payload, [Call] returns that error wrapped under
    [failed to decode result JSON: ], and the caller's location holds
    whatever [json.Unmarshal] left in it, changed or not. *)
Theorem Call_result_failure
    client ctx url method params result opts w id res s rpcRes s' (e : LibError) :
  Call_receives client ctx url method params opts w id res s →
  decodes_to res s rpcRes s' →
  response_Error rpcRes = None →
  response_ID rpcRes = id →
  snd (json_Unmarshal (response_Result rpcRes) result) = Some e →
  fst (Call client ctx url method params result opts (start w)) =
    (fst (json_Unmarshal (response_Result rpcRes) result),
     Some (wrapError ("failed to decode result JSON: " +:+ LibError_Error e)
                     (libError e))).
Proof.
  intros Hrecv Hdec He Hid Hu.
  rewrite (Call_after_response _ _ _ _ _ _ _ _ _ _ _ Hrecv).
  by rewrite (Call_response_result _ _ _ _ _ _ Hdec He Hid), Hu.
Qed.

Lemma Call_receives_intro client ctx url method params opts w
    (body : string) res :
  let id := fst (uuid_New w) in
  let r := {| request_JSONRPC := Version; request_Method := method;
              request_Params := params; request_ID := id |} in
  let req :=
    {| Request_Method := http_MethodPost;
       Request_URL := url;
       Request_Header :=
         match callOptions_Header (apply_options opts) with
         | None => Header_Add "Content-Type" "text/json" ∅
         | Some header =>
             add_entries (map_range header)
                         (Header_Add "Content-Type" "text/json" ∅)
         end;
       Request_Body := body;
       Request_ctx := ctx |} in
  method ≠ EmptyString →
  json_Marshal_request r = Ok body →
  http_NewRequest_check ctx url = None →
  fst (http_Client_Do (httpClient client) req (snd (uuid_New w))) = Ok res →
  Call_receives client ctx url method params opts w id res
    {| world := snd (http_Client_Do (httpClient client) req (snd (uuid_New w)));
       trace := [EvUUIDNew id; EvMarshal r; EvNewRequest http_MethodPost url;
                 EvDo (httpClient client) req] |}.
Proof.
  intros id r req Hm Hmar Hchk Hdo.
  split; [done|]. do 4 eexists. split; [|split].
  - rewrite requestBody_run. simpl. fold id r. by rewrite Hmar.
  - rewrite newRequest_run. by rewrite Hchk.
  - rewrite call_Do_run. simpl. fold req. rewrite Hdo. reflexivity.
Qed.

Lemma decodes_to_intro res s rpcRes :
  Response_StatusCode res = http_StatusOK →
  fst (json_Decode_response (Response_Body res) (world s)) = Ok rpcRes →
  decodes_to res s rpcRes
    {| world := snd (json_Decode_response (Response_Body res) (world s));
       trace := (trace s ++ [EvDecode (Response_Body res)])%list |}.
Proof.
  intros Hs Hdec. split; [done|]. rewrite call_Decode_run. by rewrite Hdec.
Qed.

(** X9.  [Call] returns no error only after the whole round trip: the
    method name was not empty, the transport returned status 200, the body
    decoded to an envelope with no error and the identifier of the
    request, and [json.Unmarshal] of its result succeeded, leaving in the
    caller's location what [Call] leaves there. *)
Theorem Call_success_inv client ctx url method params result opts w :
  let run := Call client ctx url method params result opts (start w) in
  snd (fst run) = None →
  ∃ id res s rpcRes s',
    Call_receives client ctx url method params opts w id res s ∧
    decodes_to res s rpcRes s' ∧
    response_Error rpcRes = None ∧
    response_ID rpcRes = id ∧
    json_Unmarshal (response_Result rpcRes) result = (fst (fst run), None).
Proof.
  intros run. subst run.
  destruct (decide (method = EmptyString)) as [->|Hm]; [discriminate|].
  rewrite (Call_run _ _ _ _ _ _ _ _ Hm). cbv zeta.
  destruct (json_Marshal_request _) as [body|?] eqn:Hmar; [|discriminate].
  destruct (http_NewRequest_check ctx url) eqn:Hchk; [discriminate|].
  destruct (fst (http_Client_Do _ _ _)) as [res|?] eqn:Hdo; [|discriminate].
  case_bool_decide as Hs; [discriminate|].
  destruct (fst (json_Decode_response _ _)) as [rpcRes|?] eqn:Hdec; [|discriminate].
  destruct (response_Error rpcRes) eqn:He; [discriminate|].
  case_bool_decide as Hid; [discriminate|].
  destruct (json_Unmarshal _ _) as [out [?|]] eqn:Hu; [discriminate|].
  simpl. intros _.
  eexists _, res, _, rpcRes, _.
  split; [exact (Call_receives_intro _ _ _ _ _ _ _ _ _ Hm Hmar Hchk Hdo)|].
  split; [by apply decodes_to_intro|]. done.
Qed.

(** X10.  An error of the [ResponseError] kind comes from the server
    only: when [Call] returns one, the transport had returned status 200
    with a body that decoded to an envelope carrying exactly that error;
    and the caller's location keeps its contents. *)
Theorem Call_structured_error_inv
    client ctx url method params result opts w (e : ResponseError) :
  let run := Call client ctx url method params result opts (start w) in
  snd (fst run) = Some (ResponseError_error e) →
  fst (fst run) = result ∧
  ∃ id res s rpcRes s',
    Call_receives client ctx url method params opts w id res s ∧
    decodes_to res s rpcRes s' ∧
    response_Error rpcRes = Some e.
Proof.
  intros run. subst run.
  destruct (decide (method = EmptyString)) as [->|Hm]; [discriminate|].
  rewrite (Call_run _ _ _ _ _ _ _ _ Hm). cbv zeta.
  destruct (json_Marshal_request _) as [body|?] eqn:Hmar; [|discriminate].
  destruct (http_NewRequest_check ctx url) eqn:Hchk; [discriminate|].
  destruct (fst (http_Client_Do _ _ _)) as [res|?] eqn:Hdo; [|discriminate].
  case_bool_decide as Hs; [discriminate|].
  destruct (fst (json_Decode_response _ _)) as [rpcRes|?] eqn:Hdec; [|discriminate].
  destruct (response_Error rpcRes) as [e'|] eqn:He.
  - simpl. intros [= ->]. split; [done|].
    eexists _, res, _, rpcRes, _.
    split; [exact (Call_receives_intro _ _ _ _ _ _ _ _ _ Hm Hmar Hchk Hdo)|].
    split; [by apply decodes_to_intro|]. done.
  - case_bool_decide as Hid; [discriminate|].
    destruct (json_Unmarshal _ _) as [out [?|]]; discriminate.
Qed.

(** X11.  [Call] changes the caller's location through [json.Unmarshal]
    of a result only: on every run in which no result is unmarshalled,
    the location holds afterwards what it held before. *)
Theorem Call_output_untouched client ctx url method params result opts w :
  let run := Call client ctx url method params result opts (start w) in
  existsb is_Unmarshal (trace (snd run)) = false →
  fst (fst run) = result.
Proof.
  intros run. subst run.
  destruct (decide (method = EmptyString)) as [->|Hm]; [done|].
  rewrite (Call_run _ _ _ _ _ _ _ _ Hm); cbv zeta; case_split; simpl; try reflexivity.
  all: discriminate.
Qed.


(** X12.  No retries: whatever happens, one [Call] draws at most one
    identifier, builds at most one HTTP request and sends at most one. *)
Theorem Call_single_request client ctx url method params result opts w :
  let evs := trace (snd (Call client ctx url method params result opts (start w))) in
  (length (List.filter is_UUIDNew evs) ≤ 1)%nat ∧
  (length (List.filter is_NewRequest evs) ≤ 1)%nat ∧
  (length (List.filter is_Do evs) ≤ 1)%nat.
Proof.
  intros evs. subst evs.
  destruct (decide (method = EmptyString)) as [->|Hm]; [simpl; lia|].
  rewrite (Call_run _ _ _ _ _ _ _ _ Hm); cbv zeta; case_split; simpl; lia.
Qed.

(** X13.  The life of a response body: on every run either no body is
    touched at all, or one body is (decoded at most once, then) drained
    once and closed once, in that order, and closing it is the last thing
    [Call] does. *)
Theorem Call_body_lifecycle client ctx url method params result opts w :
  let evs := trace (snd (Call client ctx url method params result opts (start w))) in
  List.filter on_body evs = [] ∨
  ∃ b : io_ReadCloser,
    (List.filter on_body evs = [EvDiscard b; EvClose b] ∨
     List.filter on_body evs = [EvDecode b; EvDiscard b; EvClose b]) ∧
    last evs = Some (EvClose b).
Proof.
  intros evs. subst evs.
  destruct (decide (method = EmptyString)) as [->|Hm]; [by left|].
  rewrite (Call_run _ _ _ _ _ _ _ _ Hm); cbv zeta; case_split; simpl; eauto 7.
Qed.

(** X14.  Only the last [WithHeader] counts: a call with options ending
    in [WithHeader header] is the call with that option alone, and
    [WithHeader] of a nil header is the call with no options. *)
Theorem Call_last_WithHeader client ctx url method params result opts
    (header : option http_Header) s :
  Call client ctx url method params result (opts ++ [WithHeader header]) s =
    Call client ctx url method params result [WithHeader header] s ∧
  Call client ctx url method params result [WithHeader None] s =
    Call client ctx url method params result [] s.
Proof.
  assert (apply_options (opts ++ [WithHeader header]) =
          apply_options [WithHeader header]) as Heq.
  { by rewrite !apply_options_each, apply_each_app. }
  unfold Call. by rewrite Heq.
Qed.

(** X15.  A key of the option's header set whose canonical form is not
    that of [Content-Type] nor of another key of the set carries, in the
    request sent, exactly its values in their order. *)
Theorem Call_header_unique_key client ctx url method params result opts w
    (c : http_Client) (req : http_Request)
    (header : http_Header) (key : string) (values : list string) :
  EvDo c req ∈ trace (snd (Call client ctx url method params result opts (start w))) →
  callOptions_Header (apply_options opts) = Some header →
  header !! key = Some values →
  CanonicalMIMEHeaderKey key ≠ CanonicalMIMEHeaderKey "Content-Type" →
  (∀ key' values', header !! key' = Some values' →
     CanonicalMIMEHeaderKey key' = CanonicalMIMEHeaderKey key → key' = key) →
  Header_Values key (Request_Header req) = values.
Proof.
  intros Hin Hh Hk Hct Huniq.
  rewrite (Call_Do_header _ _ _ _ _ _ _ _ _ _ Hin), Hh.
  rewrite add_entries_Values, Header_Values_Add, decide_False by done.
  unfold Header_Values at 1. rewrite lookup_empty. simpl.
  apply entry_values_unique.
  - rewrite (map_range_perm header). apply NoDup_fst_map_to_list.
  - rewrite (map_range_perm header). by apply elem_of_map_to_list.
  - intros key' values'. rewrite (map_range_perm header), elem_of_map_to_list.
    apply Huniq.
Qed.

(** X16.  With no header option, or an empty header set, the request
    sent carries one header only: [Content-Type] with the value
    [text/json]. *)
Theorem Call_header_plain client ctx url method params result opts w
    (c : http_Client) (req : http_Request) :
  EvDo c req ∈ trace (snd (Call client ctx url method params result opts (start w))) →
  callOptions_Header (apply_options opts) = None ∨
  callOptions_Header (apply_options opts) = Some ∅ →
  Request_Header req = {[ CanonicalMIMEHeaderKey "Content-Type" := ["text/json"] ]}.
Proof.
  intros Hin Hh. rewrite (Call_Do_header _ _ _ _ _ _ _ _ _ _ Hin).
  assert (match callOptions_Header (apply_options opts) with
          | None => []
          | Some header => map_range header
          end = []) as ->.
  { destruct Hh as [->| ->]; [done|].
    apply Permutation_nil_r. rewrite (map_range_perm ∅).
    by rewrite map_to_list_empty. }
  simpl. unfold Header_Add. rewrite lookup_empty. simpl.
  by rewrite insert_empty.
Qed.

(** X17.  In the header of the request sent every key present has at
    least one value, and is the canonical form of [Content-Type] or of a
    key of the option's header set that has a value. *)
Theorem Call_header_keys client ctx url method params result opts w
    (c : http_Client) (req : http_Request) (k : string) (vs : list string) :
  EvDo c req ∈ trace (snd (Call client ctx url method params result opts (start w))) →
  Request_Header req !! k = Some vs →
  vs ≠ [] ∧
  (k = CanonicalMIMEHeaderKey "Content-Type" ∨
   ∃ (header : http_Header) (key : string) (values : list string),
     callOptions_Header (apply_options opts) = Some header ∧
     header !! key = Some values ∧ values ≠ [] ∧
     k = CanonicalMIMEHeaderKey key).
Proof.
  intros Hin. rewrite (Call_Do_header _ _ _ _ _ _ _ _ _ _ Hin).
  revert k vs.
  apply (add_entries_keys
           (λ k, k = CanonicalMIMEHeaderKey "Content-Type" ∨
                 ∃ (header : http_Header) (key : string) (values : list string),
                   callOptions_Header (apply_options opts) = Some header ∧
                   header !! key = Some values ∧ values ≠ [] ∧
                   k = CanonicalMIMEHeaderKey key)).
  - intros key values Hkv Hne. right.
    destruct (callOptions_Header (apply_options opts)) as [header|];
      [|by apply elem_of_nil in Hkv].
    exists header, key, values. split; [done|]. split; [|done].
    apply elem_of_map_to_list. by rewrite <- (map_range_perm header).
  - apply Header_Add_keys; [by left|].
    intros k' vs'. by rewrite lookup_empty.
Qed.

End Extras.

(** ** The further properties on runs against the stub *)

Lemma Call_marshal_failure_witness :
  let run := Call Stub.plain tt Stub.endpoint "ping" (Some Stub.VChan) 0 []
                  (start (Stub.fresh (Stub.Answer "42"))) in
  fst run =
    (0, Some (wrapError "failed to marshal request: json: unsupported type"
                        (libError Stub.ErrUnsupportedType))) ∧
  existsb is_NewRequest (trace (snd run)) = false ∧
  existsb is_Do (trace (snd run)) = false.
Proof.
  intros run.
  eassert (run = _) as Hrun.
  { apply (Call_marshal_failure (T := Stub.types) (L := Stub.lib)
             Stub.plain tt Stub.endpoint "ping" Stub.VChan 0 []
             (Stub.fresh (Stub.Answer "42")) Stub.ErrUnsupportedType);
      [discriminate|reflexivity]. }
  rewrite Hrun. repeat split.
Defined.

Lemma Call_request_failure_witness :
  fst (Call Stub.plain tt ":bad" "ping" None 0 []
            (start (Stub.fresh (Stub.Answer "42")))) =
    (0, Some (wrapError "failed to create new HTTP request: missing protocol scheme"
                        (libError Stub.ErrMissingScheme))).
Proof.
  opose proof* (Call_request_failure (T := Stub.types) (L := Stub.lib)
                  Stub.plain tt ":bad" "ping" None 0 []
                  (Stub.fresh (Stub.Answer "42")) 7%N) as [Hrun _].
  - discriminate.
  - vm_compute. reflexivity.
  - reflexivity.
  - rewrite Hrun. reflexivity.
Defined.

Lemma Call_transport_failure_witness :
  let run := Call Stub.plain tt Stub.endpoint "ping" None 0 []
                  (start (Stub.fresh Stub.Refuse)) in
  fst run =
    (0, Some (wrapError "failed to post request: connection refused"
                        (libError Stub.ErrConnectionRefused))) ∧
  existsb on_body (trace (snd run)) = false.
Proof.
  opose proof* (Call_transport_failure (T := Stub.types) (L := Stub.lib)
                  Stub.plain tt Stub.endpoint "ping" None 0 []
                  (Stub.fresh Stub.Refuse) 7%N) as [Hrun Hbody].
  - discriminate.
  - vm_compute. reflexivity.
  - vm_compute. reflexivity.
  - vm_compute. reflexivity.
  - intros run. subst run. rewrite Hrun. split; [reflexivity|exact Hbody].
Defined.

Lemma Call_envelope_failure_witness :
  let run := Call Stub.plain tt Stub.endpoint "ping" None 0 []
                  (start (Stub.fresh Stub.Babble)) in
  fst run =
    (0, Some (wrapError "failed to decode response JSON: unexpected end of JSON input"
                        (libError Stub.ErrSyntax))) ∧
  Stub.closed (world (snd run)) = [Stub.Garbage].
Proof.
  opose proof* (Call_envelope_failure (T := Stub.types) (L := Stub.lib)
                  Stub.plain tt Stub.endpoint "ping" None 0 []
                  (Stub.fresh Stub.Babble) 7%N) as [Hrun _].
  - split; [discriminate|]. do 4 eexists.
    split; [vm_compute; reflexivity|]. split; vm_compute; reflexivity.
  - reflexivity.
  - vm_compute. reflexivity.
  - intros run. subst run. rewrite Hrun. split; reflexivity.
Defined.

Lemma Call_result_failure_witness :
  fst (Call Stub.plain tt Stub.endpoint "ping" None 0 []
            (start (Stub.fresh (Stub.Answer "true")))) =
    (0, Some (wrapError
                ("failed to decode result JSON: " +:+
                 "json: cannot unmarshal into Go value of type int")
                (libError Stub.ErrUnmarshalType))).
Proof.
  opose proof* (Call_result_failure (T := Stub.types) (L := Stub.lib)
                  Stub.plain tt Stub.endpoint "ping" None 0 []
                  (Stub.fresh (Stub.Answer "true")) 7%N) as Hrun.
  - split; [discriminate|]. do 4 eexists.
    split; [vm_compute; reflexivity|]. split; vm_compute; reflexivity.
  - split; vm_compute; reflexivity.
  - reflexivity.
  - reflexivity.
  - reflexivity.
  - rewrite Hrun. reflexivity.
Defined.

Lemma Call_error_taxonomy_witness :
  Call_error (T := Stub.types) (L := Stub.lib)
    (errorString "server does not respond 200 OK: 404 Not Found").
Proof.
  apply (Call_error_taxonomy (T := Stub.types) (L := Stub.lib)
           Stub.plain tt Stub.endpoint "ping" None 0 []
           (Stub.fresh (Stub.Status 404 "404 Not Found"))).
  vm_compute. reflexivity.
Defined.

Lemma Call_success_inv_witness :
  ∃ id res s rpcRes s',
    Call_receives (T := Stub.types) (L := Stub.lib)
      Stub.plain tt Stub.endpoint "ping" None []
      (Stub.fresh (Stub.Answer "42")) id res s ∧
    decodes_to res s rpcRes s' ∧
    response_Error rpcRes = None ∧
    response_ID rpcRes = id ∧
    json_Unmarshal (response_Result rpcRes) 0 = (42, None).
Proof.
  apply (Call_success_inv (T := Stub.types) (L := Stub.lib)
           Stub.plain tt Stub.endpoint "ping" None 0 []
           (Stub.fresh (Stub.Answer "42"))).
  vm_compute. reflexivity.
Defined.

Lemma Call_structured_error_inv_witness :
  let e := {| ResponseError_Code := InvalidParams;
              ResponseError_Message := "Invalid params";
              ResponseError_Data := None |} in
  let run := Call Stub.plain tt Stub.endpoint "ping" None 0 []
                  (start (Stub.fresh (Stub.Reject InvalidParams "Invalid params"))) in
  fst (fst run) = 0 ∧
  ∃ id res s rpcRes s',
    Call_receives (T := Stub.types) (L := Stub.lib)
      Stub.plain tt Stub.endpoint "ping" None []
      (Stub.fresh (Stub.Reject InvalidParams "Invalid params")) id res s ∧
    decodes_to res s rpcRes s' ∧
    response_Error rpcRes = Some e.
Proof.
  intros e.
  apply (Call_structured_error_inv (T := Stub.types) (L := Stub.lib)
           Stub.plain tt Stub.endpoint "ping" None 0 []
           (Stub.fresh (Stub.Reject InvalidParams "Invalid params")) e).
  vm_compute. reflexivity.
Defined.

Lemma Call_output_untouched_witness :
  fst (fst (Call Stub.plain tt Stub.endpoint "ping" None 5 []
                 (start (Stub.fresh (Stub.AnswerOther "42"))))) = 5.
Proof.
  apply (Call_output_untouched (T := Stub.types) (L := Stub.lib)
           Stub.plain tt Stub.endpoint "ping" None 5 []
           (Stub.fresh (Stub.AnswerOther "42"))).
  vm_compute. reflexivity.
Defined.

Lemma Call_request_line_witness :
  let req := Stub.request "ping" [] (Header_Add "Content-Type" "text/json" ∅) in
  EvDo 0%nat req
    ∈ trace (snd (Call Stub.plain tt Stub.endpoint "ping" None 0 []
                       (start (Stub.fresh Stub.Refuse)))) ∧
  Request_Method req = "POST" ∧ Request_URL req = Stub.endpoint ∧
  Request_ctx req = tt.
Proof.
  intros req.
  assert (EvDo 0%nat req
            ∈ trace (snd (Call Stub.plain tt Stub.endpoint "ping" None 0 []
                               (start (Stub.fresh Stub.Refuse))))) as Hin.
  { vm_compute. do 3 apply list_elem_of_further. apply list_elem_of_here. }
  split; [exact Hin|].
  exact (Call_request_line (T := Stub.types) (L := Stub.lib)
           Stub.plain tt Stub.endpoint "ping" None 0 [] _ 0%nat req Hin).
Defined.

Lemma Call_header_values_witness :
  let header : http_Header :=
    <[ "content-type" := ["application/json"] ]> {[ "x-trace" := ["a"; "b"] ]} in
  let opts := [WithHeader (Some header)] in
  let req := Stub.request "ping" []
               (add_entries (map_to_list header)
                            (Header_Add "Content-Type" "text/json" ∅)) in
  EvDo 0%nat req
    ∈ trace (snd (Call Stub.plain tt Stub.endpoint "ping" None 0 opts
                       (start (Stub.fresh (Stub.Answer "42"))))) ∧
  Header_Values "Content-Type" (Request_Header req) =
    ["text/json"; "application/json"].
Proof.
  intros header opts req.
  assert (EvDo 0%nat req
            ∈ trace (snd (Call Stub.plain tt Stub.endpoint "ping" None 0 opts
                               (start (Stub.fresh (Stub.Answer "42")))))) as Hin.
  { vm_compute. do 3 apply list_elem_of_further. apply list_elem_of_here. }
  split; [exact Hin|].
  pose proof (Call_header_values (T := Stub.types) (L := Stub.lib)
                Stub.plain tt Stub.endpoint "ping" None 0 opts _ 0%nat req
                "Content-Type" Hin) as Hv.
  cbv zeta in Hv.
  change (callOptions_Header (apply_options opts)) with (Some header) in Hv.
  destruct Hv as [Hv _]. rewrite Hv. vm_compute. reflexivity.
Defined.

Lemma Call_header_unique_key_witness :
  let header : http_Header := {[ "x-trace" := ["a"; "b"] ]} in
  let opts := [WithHeader (Some header)] in
  let req := Stub.request "ping" []
               (add_entries (map_to_list header)
                            (Header_Add "Content-Type" "text/json" ∅)) in
  EvDo 0%nat req
    ∈ trace (snd (Call Stub.plain tt Stub.endpoint "ping" None 0 opts
                       (start (Stub.fresh (Stub.Answer "42"))))) ∧
  Header_Values "x-trace" (Request_Header req) = ["a"; "b"].
Proof.
  intros header opts req.
  assert (EvDo 0%nat req
            ∈ trace (snd (Call Stub.plain tt Stub.endpoint "ping" None 0 opts
                               (start (Stub.fresh (Stub.Answer "42")))))) as Hin.
  { vm_compute. do 3 apply list_elem_of_further. apply list_elem_of_here. }
  split; [exact Hin|].
  apply (Call_header_unique_key (T := Stub.types) (L := Stub.lib)
           Stub.plain tt Stub.endpoint "ping" None 0 opts _ 0%nat req header
           "x-trace" ["a"; "b"] Hin).
  - reflexivity.
  - reflexivity.
  - vm_compute. discriminate.
  - intros key' values' Hk. by apply lookup_singleton_Some in Hk as [<- _].
Defined.

Lemma Call_header_plain_witness :
  let req := Stub.request "ping" [] (Header_Add "Content-Type" "text/json" ∅) in
  EvDo 0%nat req
    ∈ trace (snd (Call Stub.plain tt Stub.endpoint "ping" None 0 [WithHeader (Some ∅)]
                       (start (Stub.fresh (Stub.Answer "42"))))) ∧
  Request_Header req = {[ "Content-Type" := ["text/json"] ]}.
Proof.
  intros req.
  assert (EvDo 0%nat req
            ∈ trace (snd (Call Stub.plain tt Stub.endpoint "ping" None 0
                               [WithHeader (Some ∅)]
                               (start (Stub.fresh (Stub.Answer "42")))))) as Hin.
  { vm_compute. do 3 apply list_elem_of_further. apply list_elem_of_here. }
  split; [exact Hin|].
  apply (Call_header_plain (T := Stub.types) (L := Stub.lib)
           Stub.plain tt Stub.endpoint "ping" None 0 [WithHeader (Some ∅)]
           _ 0%nat req Hin).
  right. reflexivity.
Defined.

Lemma Call_header_keys_witness :
  let header : http_Header := {[ "x-trace" := ["a"; "b"] ]} in
  let opts := [WithHeader (Some header)] in
  let req := Stub.request "ping" []
               (add_entries (map_to_list header)
                            (Header_Add "Content-Type" "text/json" ∅)) in
  EvDo 0%nat req
    ∈ trace (snd (Call Stub.plain tt Stub.endpoint "ping" None 0 opts
                       (start (Stub.fresh (Stub.Answer "42"))))) ∧
  Request_Header req !! "X-Trace" = Some ["a"; "b"] ∧
  ("X-Trace" = "Content-Type" ∨
   ∃ (h : http_Header) (key : string) (values : list string),
     callOptions_Header (apply_options opts) = Some h ∧
     h !! key = Some values ∧ values ≠ [] ∧ "X-Trace" = Stub.canonical true key).
Proof.
  intros header opts req.
  assert (EvDo 0%nat req
            ∈ trace (snd (Call Stub.plain tt Stub.endpoint "ping" None 0 opts
                               (start (Stub.fresh (Stub.Answer "42")))))) as Hin.
  { vm_compute. do 3 apply list_elem_of_further. apply list_elem_of_here. }
  assert (Request_Header req !! "X-Trace" = Some ["a"; "b"]) as Hk
    by (vm_compute; reflexivity).
  split; [exact Hin|]. split; [exact Hk|].
  exact (proj2 (Call_header_keys (T := Stub.types) (L := Stub.lib)
                  Stub.plain tt Stub.endpoint "ping" None 0 opts _ 0%nat req
                  "X-Trace" ["a"; "b"] Hin Hk)).
Defined.
